(** * ai-fitness: the authentication core

A shallow embedding of the authentication and session-validation code of
the application: the route-protection middleware ([middleware.ts]), the
auth library ([lib/auth.ts]: password hashing, token issuance and
verification) and the registration endpoint
([app/api/auth/register/route.ts]).

Conventions.
- JavaScript strings are modelled as [string] (8-bit code units).
- A value that may be [undefined] is an [option]; JavaScript truthiness
  of such a value is [truthy].
- Code that may throw lives in the [Result] monad; [try_catch] is
  [try { .. } catch (error) { .. }].
- The middleware additionally logs which cookie it reads and which token
  it hands to the verifier ([Eff], a writer over [Result]).
- Third-party packages (jsonwebtoken, bcryptjs, the Mongoose user store)
  are interfaces: type classes or records of operations. *)

From Stdlib Require Import String Ascii List ZArith Lia Bool.
From Stdlib Require Import DecimalString DecimalZ.
From stdpp Require Import base strings gmap.
Import ListNotations.

Local Open Scope string_scope.
Local Open Scope Z_scope.

(** ** JavaScript values and control flow *)

Module JS.

(** [s.startsWith(p)] *)
Definition startsWith (s p : string) : bool := String.prefix p s.

(** [s.includes(sub)] *)
Definition includes (s sub : string) : bool :=
  match String.index 0 sub s with
  | Some _ => true
  | None => false
  end.

(** [l.some(f)] *)
Definition some {A : Type} (f : A -> bool) (l : list A) : bool := existsb f l.

(** Truthiness of a possibly undefined string: [undefined] and [''] are
    falsy. *)
Definition truthy (v : option string) : bool :=
  match v with
  | Some s => negb (String.eqb s "")
  | None => false
  end.

(** A thrown [Error]: its [name] and its [message]. *)
Record Error : Type := mkError { err_name : string; err_message : string }.

(** The outcome of code that may throw. *)
Inductive Result (A : Type) : Type :=
| Return (a : A)
| Throw (e : Error).
Arguments Return {A} a.
Arguments Throw {A} e.

(** [try { body } catch (error) { handler(error) }] *)
Definition try_catch {A : Type} (body : Result A) (handler : Error -> Result A)
  : Result A :=
  match body with
  | Return a => Return a
  | Throw e => handler e
  end.

End JS.
Export JS.

#[global] Instance result_ret : MRet Result := fun _ a => Return a.
#[global] Instance result_bind : MBind Result := fun _ _ f m =>
  match m with
  | Return a => f a
  | Throw e => Throw e
  end.

(** ** JSON bodies, URLs, cookies, responses *)

#[local] Set Warnings "-register-all".
Inductive Json : Type :=
| JNull
| JBool (b : bool)
| JNum (n : Z)
| JStr (s : string)
| JArr (items : list Json)
| JObj (fields : list (string * Json)).

(** [obj[key]] on a JSON object; anything else has no fields. *)
Definition json_field (key : string) (j : Json) : option Json :=
  match j with
  | JObj fields => snd <$> List.find (fun kv => String.eqb (fst kv) key) fields
  | _ => None
  end.

(** A WHATWG URL, as far as the middleware builds one: the origin of the
    base, a path, and the query parameters in order. *)
Record URL : Type := mkURL {
  url_origin : string;
  url_pathname : string;
  url_searchParams : list (string * string)
}.

(** [url.searchParams.set(k, v)]: overwrite the first entry for [k] and drop
    the others, or append. *)
Fixpoint searchParams_set (k v : string) (ps : list (string * string))
  : list (string * string) :=
  match ps with
  | [] => [(k, v)]
  | (k', v') :: rest =>
      if String.eqb k' k
      then (k, v) :: List.filter (fun kv => negb (String.eqb (fst kv) k)) rest
      else (k', v') :: searchParams_set k v rest
  end.

Record CookieOptions : Type := mkCookieOptions {
  httpOnly : bool;
  secure : bool;
  sameSite : string;
  maxAge : Z;
  path : string
}.

(** What a response does to the client's cookie jar. *)
Inductive CookieOp : Type :=
| CookieSet (name value : string) (opts : CookieOptions)
| CookieDelete (name : string).

Inductive ResponseKind : Type :=
| Next (requestHeaders : option (gmap string string))
| JsonResponse (body : Json) (status : Z)
| Redirect (target : URL).

Record NextResponse : Type := mkResponse {
  kind : ResponseKind;
  set_cookies : list CookieOp
}.

Module NextResponse.
(** [NextResponse.next()] *)
Definition next : NextResponse := mkResponse (Next None) [].
(** [NextResponse.next({ request: { headers } })] *)
Definition next_with (hs : gmap string string) : NextResponse :=
  mkResponse (Next (Some hs)) [].
(** [NextResponse.json(body, { status })] *)
Definition json (body : Json) (status : Z) : NextResponse :=
  mkResponse (JsonResponse body status) [].
(** [NextResponse.redirect(url)] *)
Definition redirect (u : URL) : NextResponse := mkResponse (Redirect u) [].
(** [response.cookies.delete(name)] *)
Definition cookies_delete (name : string) (r : NextResponse) : NextResponse :=
  mkResponse (kind r) (set_cookies r ++ [CookieDelete name]).
(** [response.cookies.set(name, value, options)] *)
Definition cookies_set (name value : string) (o : CookieOptions)
  (r : NextResponse) : NextResponse :=
  mkResponse (kind r) (set_cookies r ++ [CookieSet name value o]).
End NextResponse.

Record NextRequest : Type := mkRequest {
  req_origin : string;               (* origin of [request.url] *)
  req_pathname : string;             (* [request.nextUrl.pathname] *)
  req_cookies : gmap string string;  (* [request.cookies] *)
  req_headers : gmap string string   (* [request.headers] *)
}.

(** [new URL(path, request.url)] for an absolute [path]. *)
Definition new_URL (path : string) (request : NextRequest) : URL :=
  mkURL (req_origin request) path [].

(** ** Identity claims *)

(** [Omit<JWTPayload, 'iat' | 'exp'>] *)
Record Claims : Type := mkClaims {
  c_userId : string;
  c_email : string;
  c_name : string
}.

Record JWTPayload : Type := mkPayload {
  userId : string;
  email : string;
  name : string;
  iat : option Z;
  exp : option Z
}.

(** ** The request gate ([middleware.ts]) *)

(** What the gate does besides computing a response. *)
Inductive Event : Type :=
| CookieRead (name : string)      (* [request.cookies.get(name)] *)
| TokenVerified (token : string). (* [verifyToken(token)] *)

(** A computation that logs events and may throw. *)
Definition Eff (A : Type) : Type := (list Event * Result A)%type.

#[global] Instance eff_ret : MRet Eff := fun _ a => ([], Return a).
#[global] Instance eff_bind : MBind Eff := fun _ _ f m =>
  match m with
  | (log, Return a) => let '(log', r) := f a in ((log ++ log')%list, r)
  | (log, Throw e) => (log, Throw e)
  end.

(** [request.cookies.get(name)?.value] *)
Definition cookies_get (request : NextRequest) (name : string)
  : Eff (option string) :=
  ([CookieRead name], Return (req_cookies request !! name)).

(** A step that logs nothing. *)
Definition quiet {A : Type} (r : Result A) : Eff A := ([], r).

(** The [Headers] of the Fetch standard, as far as the gate uses them. *)
Module Headers.

(** HTTP whitespace: tab, line feed, carriage return, space. *)
Definition is_http_whitespace (c : ascii) : bool :=
  let n := nat_of_ascii c in
  ((n =? 9) || (n =? 10) || (n =? 13) || (n =? 32))%nat.

Fixpoint strip_leading (value : string) : string :=
  match value with
  | String c rest => if is_http_whitespace c then strip_leading rest else value
  | EmptyString => EmptyString
  end.

(** Normalizing a value removes its leading and trailing HTTP whitespace. *)
Definition normalize (value : string) : string :=
  String.rev (strip_leading (String.rev (strip_leading value))).

(** A header value holds no NUL, line feed or carriage return. *)
Fixpoint is_value (value : string) : bool :=
  match value with
  | String c rest =>
      let n := nat_of_ascii c in
      negb ((n =? 0) || (n =? 10) || (n =? 13))%nat && is_value rest
  | EmptyString => true
  end.

(** [headers.set(name, value)] for a well-formed lower-case [name]: the
    value is normalized and must then be a header value, or the call throws
    a [TypeError].  (So does a code unit above 0xFF, which an 8-bit string
    does not hold.) *)
Definition set (name value : string) (headers : gmap string string)
  : Result (gmap string string) :=
  let value := normalize value in
  if is_value value then Return (<[name := value]> headers)
  else Throw (mkError "TypeError" "Invalid header value").

End Headers.

Module Middleware.

(** Define protected routes that require authentication *)
Definition protectedRoutes : list string :=
  [ "/generate-program"; "/profile"; "/api/ai"; "/api/programs";
    "/api/user"; "/api/auth/me" ].

(** Define public routes that don't require authentication *)
Definition publicRoutes : list string :=
  [ "/"; "/api/auth/login"; "/api/auth/register"; "/api/auth/logout";
    "/api/auth/me"; "/auth/login"; "/auth/register" ].

(** Define API routes that require authentication *)
Definition protectedApiRoutes : list string :=
  [ "/api/ai"; "/api/programs"; "/api/user" ].

(** Skip middleware for static files and Next.js internals *)
Definition isStaticOrInternal (pathname : string) : bool :=
  startsWith pathname "/_next" ||
  startsWith pathname "/static" ||
  includes pathname "." ||
  startsWith pathname "/favicon.ico".

Definition error_body (msg : string) : Json := JObj [("error", JStr msg)].

Section Gate.

(** The three route tables are module constants of [middleware.ts];
    [verifyToken] is imported from the auth library. *)
Variables publicRoutes' protectedRoutes' protectedApiRoutes' : list string.
Variable verifyToken : string -> Result (option JWTPayload).

Definition call_verifyToken (token : string) : Eff (option JWTPayload) :=
  ([TokenVerified token], verifyToken token).

Definition isPublicRoute (pathname : string) : bool :=
  some (fun route => String.eqb pathname route || startsWith pathname route)
       publicRoutes'.

Definition isProtectedRoute (pathname : string) : bool :=
  some (fun route => startsWith pathname route) protectedRoutes'.

Definition isProtectedApiRoute (pathname : string) : bool :=
  some (fun route => startsWith pathname route) protectedApiRoutes'.

Definition middlewareWith (request : NextRequest) : Eff NextResponse :=
  let pathname := req_pathname request in
  if isStaticOrInternal pathname then mret NextResponse.next
  else
    (* If it's a public route, allow access *)
    if isPublicRoute pathname || String.eqb pathname "/api/auth/me"
    then mret NextResponse.next
    else
      (* Get token from cookie *)
      token ← cookies_get request "auth-token";
      (* If no token and route is protected, redirect or return unauthorized *)
      if negb (truthy token) &&
         (isProtectedRoute pathname || isProtectedApiRoute pathname)
      then
        if isProtectedApiRoute pathname
        then mret (NextResponse.json (error_body "Authentication required") 401)
        else
          let signInUrl := new_URL "/auth/login" request in
          let signInUrl :=
            mkURL (url_origin signInUrl) (url_pathname signInUrl)
                  (searchParams_set "callbackUrl" pathname
                                    (url_searchParams signInUrl)) in
          mret (NextResponse.redirect signInUrl)
      else
        match token with
        | Some tok =>
            if truthy token then
              (* If token exists, verify it *)
              payload ← call_verifyToken tok;
              match payload with
              | None =>
                  if isProtectedRoute pathname || isProtectedApiRoute pathname
                  then
                    if isProtectedApiRoute pathname
                    then mret (NextResponse.json
                                 (error_body "Invalid or expired token") 401)
                    else
                      (* clear invalid cookie and redirect to sign-in *)
                      let response :=
                        NextResponse.redirect (new_URL "/auth/login" request) in
                      mret (NextResponse.cookies_delete "auth-token" response)
                  else mret NextResponse.next
              | Some payload =>
                  (* add user info to headers for API routes *)
                  if isProtectedApiRoute pathname then
                    let requestHeaders := req_headers request in
                    requestHeaders ←
                      quiet (Headers.set "x-user-id" (userId payload)
                                         requestHeaders);
                    requestHeaders ←
                      quiet (Headers.set "x-user-email" (email payload)
                                         requestHeaders);
                    requestHeaders ←
                      quiet (Headers.set "x-user-name" (name payload)
                                         requestHeaders);
                    mret (NextResponse.next_with requestHeaders)
                  else
                    (* authenticated user on an auth page: go to profile *)
                    if startsWith pathname "/auth/login" ||
                       startsWith pathname "/sign-up"
                    then mret (NextResponse.redirect (new_URL "/profile" request))
                    else mret NextResponse.next
              end
            else mret NextResponse.next
        | None => mret NextResponse.next
        end.

End Gate.

(** [export async function middleware(request)] with the tables of the
    file.  Which requests the framework hands to the function is decided by
    [config.matcher], which is not part of this embedding. *)
Definition middleware (verifyToken : string -> Result (option JWTPayload))
  (request : NextRequest) : Eff NextResponse :=
  middlewareWith publicRoutes protectedRoutes protectedApiRoutes
                 verifyToken request.

End Middleware.

(** ** Third-party packages used by the auth library *)

(** The [ms] package, for the time spans the code writes: digits followed
    by one of the units [s], [m], [h], [d], [w]; the result is in
    milliseconds. *)
Module Ms.

Definition digit (c : ascii) : option Z :=
  let n := Z.of_nat (nat_of_ascii c) in
  if (48 <=? n) && (n <=? 57) then Some (n - 48) else None.

(** Reads the leading digits of [s]: their value, how many there were and
    what follows them. *)
Fixpoint leading_digits (s : string) (acc : Z) (seen : nat)
  : Z * nat * string :=
  match s with
  | String c rest =>
      match digit c with
      | Some d => leading_digits rest (10 * acc + d) (S seen)
      | None => (acc, seen, s)
      end
  | EmptyString => (acc, seen, s)
  end.

Definition unit_ms (u : string) : option Z :=
  if String.eqb u "s" then Some 1000
  else if String.eqb u "m" then Some (60 * 1000)
  else if String.eqb u "h" then Some (60 * 60 * 1000)
  else if String.eqb u "d" then Some (24 * 60 * 60 * 1000)
  else if String.eqb u "w" then Some (7 * 24 * 60 * 60 * 1000)
  else None.

Definition ms (span : string) : option Z :=
  let '(n, seen, u) := leading_digits span 0 0 in
  match seen with
  | O => None
  | S _ => Z.mul n <$> unit_ms u
  end.

End Ms.

(** The [jsonwebtoken] package over the [jws] package.  [jws] does the
    encoding and the HMAC and is kept abstract; [sign] and [verify] follow
    jsonwebtoken's own steps (secret present, timestamps, decode, signature,
    expiry).  Time is the clock in seconds, [Math.floor(Date.now() / 1000)],
    passed in. *)
Module Jsonwebtoken.

Class Jws : Type := {
  (** [jws.sign({ header: { alg: 'HS256', typ: 'JWT' }, payload, secret })] *)
  jws_sign : JWTPayload -> string -> string;
  (** [jws.decode(token)]: the payload of a well-formed token *)
  jws_decode : string -> option JWTPayload;
  (** [jws.verify(token, 'HS256', secret)] *)
  jws_verify : string -> string -> bool
}.

(** What jws guarantees about its own tokens. *)
Class JwsLaws (J : Jws) : Prop := {
  decode_sign : forall p s, jws_decode (jws_sign p s) = Some p;
  verify_sign : forall p s, jws_verify (jws_sign p s) s = true
}.

Definition JsonWebTokenError (message : string) : Error :=
  mkError "JsonWebTokenError" message.
Definition TokenExpiredError : Error :=
  mkError "TokenExpiredError" "jwt expired".
Definition secret_missing : Error :=
  JsonWebTokenError "secret or public key must be provided".

Section WithJws.
  Context {J : Jws}.

(** [jwt.sign(payload, secretOrPrivateKey, { expiresIn })] *)
Definition sign (payload : Claims) (secretOrPrivateKey : option string)
  (expiresIn : string) (now : Z) : Result string :=
  match secretOrPrivateKey with
  | Some secret =>
      if truthy secretOrPrivateKey then
        match Ms.ms expiresIn with
        | Some span =>
            let timestamp := now in
            Return (jws_sign
                      (mkPayload (c_userId payload) (c_email payload)
                                 (c_name payload) (Some timestamp)
                                 (Some (timestamp + span / 1000)))
                      secret)
        | None =>
            Throw (mkError "Error"
              "expiresIn should be a number of seconds or string representing a timespan")
        end
      else Throw (mkError "Error" "secretOrPrivateKey must have a value")
  | None => Throw (mkError "Error" "secretOrPrivateKey must have a value")
  end.

(** [jwt.verify(token, secretOrPublicKey)] *)
Definition verify (token : string) (secretOrPublicKey : option string)
  (now : Z) : Result JWTPayload :=
  match jws_decode token with
  | None => Throw (JsonWebTokenError "jwt malformed")
  | Some payload =>
      match secretOrPublicKey with
      | Some secret =>
          if truthy secretOrPublicKey then
            if negb (jws_verify token secret)
            then Throw (JsonWebTokenError "invalid signature")
            else
              match exp payload with
              | Some e =>
                  if e <=? now then Throw TokenExpiredError
                  else Return payload
              | None => Return payload
              end
          else Throw secret_missing
      | None => Throw secret_missing
      end
  end.

End WithJws.

End Jsonwebtoken.

(** The [bcryptjs] package: the salted hash and its check.  [entropy] is
    what the package draws from the random source for the salt. *)
Class Bcrypt : Type := {
  bcrypt_hash : string -> Z -> string -> Result string;
  bcrypt_compare : string -> string -> Result bool
}.

(** ** The auth library ([lib/auth.ts]) *)

Module Auth.
  Import Jsonwebtoken.

(** The module once loaded: its top-level constant. *)
Record Loaded : Type := mkLoaded { JWT_SECRET : option string }.

Definition missing_secret : Error :=
  mkError "Error"
    "Please define the JWT_SECRET environment variable inside .env.local".

(** Evaluating the module body against [process.env]. *)
Definition load (env : gmap string string) : Result Loaded :=
  let JWT_SECRET := env !! "JWT_SECRET" in
  if negb (truthy JWT_SECRET) then Throw missing_secret
  else Return (mkLoaded JWT_SECRET).

Section Exports.
  Context {J : Jws} {B : Bcrypt}.
  Variable auth : Loaded.

(** Hash a password using bcrypt *)
Definition hashPassword (entropy : string) (password : string)
  : Result string :=
  let saltRounds := 12 in
  bcrypt_hash password saltRounds entropy.

(** Compare a plain text password with a hashed password *)
Definition comparePassword (password hashedPassword : string)
  : Result bool :=
  bcrypt_compare password hashedPassword.

(** Generate a JWT token for a user *)
Definition generateToken (now : Z) (payload : Claims) : Result string :=
  sign payload (JWT_SECRET auth) "7d" now.

(** Verify and decode a JWT token *)
Definition verifyToken (now : Z) (token : string)
  : Result (option JWTPayload) :=
  try_catch
    (decoded ← verify token (JWT_SECRET auth) now;
     mret (Some decoded))
    (fun error => mret None).

End Exports.

End Auth.

(** ** Regular expressions, for the e-mail check *)

Module Regex.

Inductive t : Type :=
| Void                          (* matches nothing *)
| Eps                           (* the empty string *)
| Class (member : ascii -> bool)
| Seq (r s : t)
| Alt (r s : t)
| Star (r : t).

Fixpoint nullable (r : t) : bool :=
  match r with
  | Void => false
  | Eps => true
  | Class _ => false
  | Seq r s => nullable r && nullable s
  | Alt r s => nullable r || nullable s
  | Star _ => true
  end.

Definition seq (r s : t) : t :=
  match r, s with
  | Void, _ => Void
  | _, Void => Void
  | Eps, _ => s
  | _, _ => Seq r s
  end.

Definition alt (r s : t) : t :=
  match r, s with
  | Void, _ => s
  | _, Void => r
  | _, _ => Alt r s
  end.

(** Brzozowski derivative: what is left to match after reading [c]. *)
Fixpoint deriv (c : ascii) (r : t) : t :=
  match r with
  | Void => Void
  | Eps => Void
  | Class member => if member c then Eps else Void
  | Seq r s =>
      alt (seq (deriv c r) s) (if nullable r then deriv c s else Void)
  | Alt r s => alt (deriv c r) (deriv c s)
  | Star r => seq (deriv c r) (Star r)
  end.

(** The whole of [s] matches [r]: [/^r$/.test(s)]. *)
Fixpoint matches (r : t) (s : string) : bool :=
  match s with
  | EmptyString => nullable r
  | String c rest => matches (deriv c r) rest
  end.

(** The strings of a regular expression. *)
Inductive lang : t -> string -> Prop :=
| lang_eps : lang Eps ""
| lang_class member c : member c = true -> lang (Class member) (String c "")
| lang_seq r s a b : lang r a -> lang s b -> lang (Seq r s) (a ++ b)
| lang_alt_l r s a : lang r a -> lang (Alt r s) a
| lang_alt_r r s a : lang s a -> lang (Alt r s) a
| lang_star_nil r : lang (Star r) ""
| lang_star_cons r a b : lang r a -> lang (Star r) b -> lang (Star r) (a ++ b).

Definition char (c : ascii) : t := Class (Ascii.eqb c).
Definition plus (r : t) : t := Seq r (Star r).
Definition opt (r : t) : t := Alt Eps r.

(** [\w]: [A-Za-z0-9_] *)
Definition is_word (c : ascii) : bool :=
  let n := nat_of_ascii c in
  ((65 <=? n) && (n <=? 90) || (97 <=? n) && (n <=? 122) ||
   (48 <=? n) && (n <=? 57) || (n =? 95))%nat.
Definition word : t := Class is_word.

End Regex.

(** ** The registration endpoint ([app/api/auth/register/route.ts]) *)

Module Register.
  Import Regex.

(** JavaScript whitespace among 8-bit code units. *)
Definition is_space (c : ascii) : bool :=
  let n := nat_of_ascii c in
  ((9 <=? n) && (n <=? 13) || (n =? 32) || (n =? 160))%nat.

Fixpoint trimStart (s : string) : string :=
  match s with
  | String c rest => if is_space c then trimStart rest else s
  | EmptyString => EmptyString
  end.

(** [s.trim()] *)
Definition trim (s : string) : string :=
  String.rev (trimStart (String.rev (trimStart s))).

Definition lower (c : ascii) : ascii :=
  let n := nat_of_ascii c in
  if ((65 <=? n) && (n <=? 90))%nat then ascii_of_nat (n + 32) else c.

(** [s.toLowerCase()], on ASCII letters *)
Fixpoint toLowerCase (s : string) : string :=
  match s with
  | String c rest => String (lower c) (toLowerCase rest)
  | EmptyString => EmptyString
  end.

(** [/^\w+([.-]?\w+)*@\w+([.-]?\w+)*(\.\w{2,3})+$/] *)
Definition emailRegex : Regex.t :=
  let dot_or_dash := Class (fun c => Ascii.eqb c "." || Ascii.eqb c "-") in
  let words := Seq (plus word) (Star (Seq (opt dot_or_dash) (plus word))) in
  Seq words
      (Seq (char "@")
           (Seq words
                (plus (Seq (char ".")
                           (Seq word (Seq word (opt word))))))).

(** The parsed request body, [const { email, password, name,
    confirmPassword } = body]; each field a string or undefined. *)
Record Body : Type := mkBody {
  b_email : option string;
  b_password : option string;
  b_name : option string;
  b_confirmPassword : option string
}.

(** [new User({ .. })] as the handler fills it in. *)
Record NewUser : Type := mkNewUser {
  n_email : string;
  n_password : string;
  n_name : string;
  n_fitnessProfile : Json;
  n_programs : list string;
  n_isEmailVerified : bool
}.

(** A stored user document, as [save()] resolves to it. *)
Record UserDoc : Type := mkUserDoc {
  u_id : string;
  u_email : string;
  u_password : string;
  u_name : string;
  u_fitnessProfile : Json;
  u_isEmailVerified : bool;
  u_profileCompleteness : Z;
  u_createdAt : string
}.

(** The user store as the handler meets it: each call resolves or throws. *)
Class UserStore : Type := {
  connectToDatabase : Result unit;
  User_findOne : string -> Result (option UserDoc);
  User_save : NewUser -> Result UserDoc
}.

Definition error_response (msg : string) (status : Z) : NextResponse :=
  NextResponse.json (JObj [("error", JStr msg)]) status.

Definition default_fitnessProfile : Json :=
  JObj [ ("fitnessLevel", JStr "beginner");
         ("activityLevel", JStr "moderately_active");
         ("workoutFrequency", JNum 3);
         ("goals", JArr []);
         ("injuries", JArr []);
         ("allergies", JArr []);
         ("dietaryRestrictions", JArr []);
         ("preferredWorkoutTypes", JArr []) ].

Section Handler.
  Context {J : Jsonwebtoken.Jws} {B : Bcrypt} {S : UserStore}.
  Variable auth : Auth.Loaded.
  Variable env : gmap string string.   (* [process.env] *)
  Variable now : Z.                    (* the clock, in seconds *)
  Variable entropy : string.           (* the random source, for the salt *)

Definition str (v : option string) : string :=
  match v with
  | Some s => s
  | None => ""
  end.

(** The [try] block of [POST]. *)
Definition POST_body (request_json : Result Body) : Result NextResponse :=
  (* Connect to database *)
  _ ← connectToDatabase;
  (* Parse request body *)
  body ← request_json;
  let email := b_email body in
  let password := b_password body in
  let name := b_name body in
  let confirmPassword := b_confirmPassword body in
  (* Validate required fields *)
  if negb (truthy email) || negb (truthy password) || negb (truthy name)
  then mret (error_response "Email, password, and name are required" 400)
  else
  let email := str email in
  let password := str password in
  let name := str name in
  (* Validate email format *)
  if negb (matches emailRegex email)
  then mret (error_response "Please enter a valid email address" 400)
  else
  (* Validate password strength *)
  if (String.length password <? 6)%nat
  then mret (error_response "Password must be at least 6 characters long" 400)
  else
  (* Check if passwords match (if confirmPassword is provided) *)
  if truthy confirmPassword && negb (String.eqb password (str confirmPassword))
  then mret (error_response "Passwords do not match" 400)
  else
  (* Validate name *)
  if (String.length (trim name) <? 2)%nat
  then mret (error_response "Name must be at least 2 characters long" 400)
  else
  if (50 <? String.length name)%nat
  then mret (error_response "Name cannot be longer than 50 characters" 400)
  else
  (* Check if user already exists *)
  existingUser ← User_findOne (toLowerCase email);
  match existingUser with
  | Some _ =>
      mret (error_response "An account with this email already exists" 409)
  | None =>
      (* Hash password *)
      hashedPassword ← Auth.hashPassword entropy password;
      (* Create new user, save user to database *)
      let newUser :=
        mkNewUser (trim (toLowerCase email)) hashedPassword (trim name)
                  default_fitnessProfile [] false in
      savedUser ← User_save newUser;
      (* Generate JWT token *)
      token ← Auth.generateToken auth now
                (mkClaims (u_id savedUser) (u_email savedUser)
                          (u_name savedUser));
      (* Create response with user data (excluding password) *)
      let userData :=
        JObj [ ("id", JStr (u_id savedUser));
               ("email", JStr (u_email savedUser));
               ("name", JStr (u_name savedUser));
               ("fitnessProfile", u_fitnessProfile savedUser);
               ("isEmailVerified", JBool (u_isEmailVerified savedUser));
               ("profileCompleteness", JNum (u_profileCompleteness savedUser));
               ("createdAt", JStr (u_createdAt savedUser)) ] in
      let response :=
        NextResponse.json
          (JObj [ ("success", JBool true);
                  ("message", JStr "Account created successfully");
                  ("user", userData) ])
          201 in
      (* Set HTTP-only cookie with JWT token *)
      let response :=
        NextResponse.cookies_set "auth-token" token
          {| httpOnly := true;
             secure := bool_decide (env !! "NODE_ENV" = Some "production");
             sameSite := "strict";
             maxAge := 7 * 24 * 60 * 60;
             path := "/" |}
          response in
      mret response
  end.

(** The [catch] block of [POST]. *)
Definition POST_catch (error : Error) : Result NextResponse :=
  (* Handle MongoDB duplicate key error *)
  if includes (err_message error) "E11000"
  then mret (error_response "An account with this email already exists" 409)
  else
  (* Handle validation errors *)
  if String.eqb (err_name error) "ValidationError"
  then mret (error_response "Please check your input and try again" 400)
  else
    mret (error_response
            "An error occurred during registration. Please try again." 500).

(** [export async function POST(request)] *)
Definition POST (request_json : Result Body) : Result NextResponse :=
  try_catch (POST_body request_json) POST_catch.

End Handler.

End Register.

(** ** Concrete collaborators

    Small executable stand-ins for jws, bcryptjs and the user store, so that
    the handlers can be run on concrete requests.  The token format is
    length-framed text with a keyed checksum; it has the shape of a signed
    token and none of its strength. *)

Module Fixture.
Import Jsonwebtoken Register.

Fixpoint ones (n : nat) : string :=
  match n with
  | O => EmptyString
  | S k => String "1" (ones k)
  end.

(** [s] preceded by its length in unary and a ["0"]. *)
Definition frame (s : string) : string :=
  ones (String.length s) ++ String "0" s.

Fixpoint count_ones (s : string) : nat * string :=
  match s with
  | String c rest =>
      if Ascii.eqb c "1"
      then let '(n, r) := count_ones rest in (S n, r)
      else (O, s)
  | EmptyString => (O, s)
  end.

Fixpoint split_at (n : nat) (s : string) : option (string * string) :=
  match n, s with
  | O, _ => Some (EmptyString, s)
  | S k, String c rest =>
      match split_at k rest with
      | Some (a, b) => Some (String c a, b)
      | None => None
      end
  | S _, EmptyString => None
  end.

(** Reads one frame off the front of [s]. *)
Definition unframe (s : string) : option (string * string) :=
  let '(n, r) := count_ones s in
  match r with
  | String c body => if Ascii.eqb c "0" then split_at n body else None
  | EmptyString => None
  end.

Definition time_text (t : option Z) : string :=
  match t with
  | Some z => String "s" (NilEmpty.string_of_int (Z.to_int z))
  | None => "n"
  end.

Definition text_time (s : string) : option (option Z) :=
  match s with
  | String c rest =>
      if Ascii.eqb c "s"
      then (fun d => Some (Z.of_int d)) <$> NilEmpty.int_of_string rest
      else if String.eqb s "n" then Some None else None
  | EmptyString => None
  end.

Definition payload_text (p : JWTPayload) : string :=
  frame (userId p) ++ frame (email p) ++ frame (name p) ++
  frame (time_text (iat p)) ++ frame (time_text (exp p)).

Definition text_payload (s : string) : option JWTPayload :=
  '(u, s) ← unframe s;
  '(e, s) ← unframe s;
  '(n, s) ← unframe s;
  '(i, s) ← unframe s;
  '(x, s) ← unframe s;
  i ← text_time i;
  x ← text_time x;
  if String.eqb s "" then Some (mkPayload u e n i x) else None.

(** A keyed checksum of [msg]. *)
Fixpoint checksum (acc : Z) (s : string) : Z :=
  match s with
  | String c rest =>
      checksum ((31 * acc + Z.of_nat (nat_of_ascii c)) mod 65521) rest
  | EmptyString => acc
  end.

Definition mac (key msg : string) : string :=
  NilEmpty.string_of_int (Z.to_int (checksum (checksum 7 key) msg)).

Definition token_parts (token : string) : option (string * string) :=
  '(tag, s) ← unframe token;
  '(body, s) ← unframe s;
  if String.eqb s "" then Some (tag, body) else None.

#[global] Instance framed_jws : Jws := {|
  jws_sign p secret :=
    let body := payload_text p in frame (mac secret body) ++ frame body;
  jws_decode token := '(_, body) ← token_parts token; text_payload body;
  jws_verify token secret :=
    match token_parts token with
    | Some (tag, body) => String.eqb tag (mac secret body)
    | None => false
    end
|}.

#[global] Instance framed_bcrypt : Bcrypt := {|
  bcrypt_hash password rounds entropy :=
    Return (frame entropy ++ mac entropy password);
  bcrypt_compare password hashed :=
    match unframe hashed with
    | Some (salt, digest) => Return (String.eqb digest (mac salt password))
    | None => Return false
    end
|}.

(** A store that is up, holds nobody, and accepts every document. *)
#[global] Instance empty_store : UserStore := {|
  connectToDatabase := Return tt;
  User_findOne _ := Return None;
  User_save n :=
    Return (mkUserDoc "64b7f0c2a1d3e4f5a6b7c8d9" (n_email n) (n_password n)
                      (n_name n) (n_fitnessProfile n) (n_isEmailVerified n)
                      33 "2025-01-01T00:00:00.000Z")
|}.

Definition request (pathname : string) (cookies : gmap string string)
  : NextRequest :=
  mkRequest "https://fitness.example" pathname cookies ∅.

(** The public table of the middleware without its ["/"] entry. *)
Definition publicRoutes_listed : list string :=
  List.filter (fun route => negb (String.eqb route "/")) Middleware.publicRoutes.

(** The middleware over [publicRoutes_listed]. *)
Definition middleware_listed (verifyToken : string -> Result (option JWTPayload))
  (request : NextRequest) : Eff NextResponse :=
  Middleware.middlewareWith publicRoutes_listed Middleware.protectedRoutes
    Middleware.protectedApiRoutes verifyToken request.

(** A verifier that finds every token invalid. *)
Definition rejecting (token : string) : Result (option JWTPayload) :=
  Return None.

Definition alice : Claims := mkClaims "64b7f0c2a1d3e4f5a6b7c8d9" "a@b.com" "Alice".

Definition production : gmap string string :=
  {[ "JWT_SECRET" := "s3cr3t"; "NODE_ENV" := "production" ]}.

Definition configured : Auth.Loaded := Auth.mkLoaded (Some "s3cr3t").

End Fixture.

(** ** More of the code: the rest of the auth library, the session
    endpoint, the input sanitizer, the form validators and the profile
    completeness of the user model *)

Module AuthHeader.

(** Extract JWT token from Authorization header ([lib/auth.ts]);
    [authHeader.substring(7)] drops the seven characters of ['Bearer ']. *)
Definition extractTokenFromHeader (authHeader : option string) : option string :=
  match authHeader with
  | Some header =>
      if negb (truthy authHeader) || negb (startsWith header "Bearer ")
      then None
      else Some (String.substring 7 (String.length header - 7) header)
  | None => None
  end.

End AuthHeader.

(** [app/api/auth/me/route.ts] *)
Module Me.

(** What [User.findById(id).select('-password').lean()] resolves to, as far
    as the handler reads it. *)
Record LeanUser : Type := mkLeanUser {
  l_id : string;
  l_email : string;
  l_name : string;
  l_fitnessProfile : Json;
  l_programs : option (list string);
  l_createdAt : string;
  l_updatedAt : string
}.

Class UserLookup : Type := {
  connectToDatabase : Result unit;
  User_findById : string -> Result (option LeanUser)
}.

Definition error_response (msg : string) (status : Z) : NextResponse :=
  NextResponse.json (JObj [("error", JStr msg)]) status.

(** Format user data for frontend *)
Definition userData (user : LeanUser) : Json :=
  JObj [ ("id", JStr (l_id user));
         ("email", JStr (l_email user));
         ("name", JStr (l_name user));
         ("fitnessProfile", l_fitnessProfile user);
         ("programs",
          JArr (List.map JStr (match l_programs user with
                               | Some ids => ids
                               | None => []
                               end)));
         ("createdAt", JStr (l_createdAt user));
         ("updatedAt", JStr (l_updatedAt user)) ].

Section Handler.
Context {J : Jsonwebtoken.Jws} {U : UserLookup}.
Variable auth : Auth.Loaded.
Variable now : Z.

(** The [try] block of [GET]. *)
Definition GET_body (request : NextRequest) : Result NextResponse :=
  (* Get the token from cookies *)
  let token := req_cookies request !! "auth-token" in
  match token with
  | Some tok =>
      if negb (truthy token)
      then mret (error_response "No authentication token found" 401)
      else
        (* Verify the token *)
        decoded ← Auth.verifyToken auth now tok;
        match decoded with
        | None => mret (error_response "Invalid authentication token" 401)
        | Some decoded =>
            (* Connect to database, get user from database *)
            _ ← connectToDatabase;
            user ← User_findById (userId decoded);
            match user with
            | None => mret (error_response "User not found" 404)
            | Some user =>
                mret (NextResponse.json
                        (JObj [ ("success", JBool true);
                                ("user", userData user) ])
                        200)
            end
        end
  | None => mret (error_response "No authentication token found" 401)
  end.

(** [export async function GET(request)] *)
Definition GET (request : NextRequest) : Result NextResponse :=
  try_catch (GET_body request)
            (fun error => mret (error_response "Internal server error" 500)).

End Handler.

End Me.

(** [AIUtils] of [lib/ai/openai.ts] *)
Module AIUtils.

(** Validate AI API key: [!!process.env.OPENAI_API_KEY] *)
Definition isConfigured (env : gmap string string) : bool :=
  truthy (env !! "OPENAI_API_KEY").

(** [input.replace(/[<>]/g, '')] *)
Fixpoint strip_angle_brackets (input : string) : string :=
  match input with
  | String c rest =>
      if Ascii.eqb c "<" || Ascii.eqb c ">"
      then strip_angle_brackets rest
      else String c (strip_angle_brackets rest)
  | EmptyString => EmptyString
  end.

(** Neither [<] nor [>]. *)
Definition no_angle (c : ascii) : bool :=
  negb (Ascii.eqb c "<" || Ascii.eqb c ">").

(** Sanitize user input for AI prompts *)
Definition sanitizeInput (input : string) : string :=
  Register.trim (strip_angle_brackets input).

End AIUtils.

(** The validators of [useAuthForm] ([lib/hooks/useAuthForm.ts]) *)
Module AuthForm.
Import Regex.

(** [[^\s@]] *)
Definition not_space_or_at (c : ascii) : bool :=
  negb (Register.is_space c || Ascii.eqb c "@").

(** [/^[^\s@]+@[^\s@]+\.[^\s@]+$/] *)
Definition emailRegex : Regex.t :=
  Seq (plus (Class not_space_or_at))
      (Seq (char "@")
           (Seq (plus (Class not_space_or_at))
                (Seq (char ".") (plus (Class not_space_or_at))))).

Definition validateEmail (email : string) : bool := matches emailRegex email.

(** The characters the pattern of the registration endpoint is made of:
    word characters, [.] and [-]. *)
Definition server_char (c : ascii) : bool :=
  is_word c || Ascii.eqb c "." || Ascii.eqb c "-".

Definition is_lower (c : ascii) : bool :=
  let n := nat_of_ascii c in ((97 <=? n) && (n <=? 122))%nat.
Definition is_upper (c : ascii) : bool :=
  let n := nat_of_ascii c in ((65 <=? n) && (n <=? 90))%nat.
Definition is_digit (c : ascii) : bool :=
  let n := nat_of_ascii c in ((48 <=? n) && (n <=? 57))%nat.

(** The characters [.] does not match. *)
Definition is_line_terminator (c : ascii) : bool :=
  let n := nat_of_ascii c in ((n =? 10) || (n =? 13))%nat.

(** [(?=.*[cls])] at the start of [s]: a character of the class occurs
    before the first line terminator. *)
Fixpoint ahead (cls : ascii -> bool) (s : string) : bool :=
  match s with
  | String c rest => cls c || (negb (is_line_terminator c) && ahead cls rest)
  | EmptyString => false
  end.

(** [/(?=.*[a-z])(?=.*[A-Z])(?=.*\d)/.test(s)]: the three lookaheads hold
    at some position of [s]. *)
Fixpoint test_mixed (s : string) : bool :=
  (ahead is_lower s && ahead is_upper s && ahead is_digit s) ||
  match s with
  | String _ rest => test_mixed rest
  | EmptyString => false
  end.

Definition validatePassword (password : string) : option string :=
  if (String.length password <? 8)%nat
  then Some "Password must be at least 8 characters long"
  else if negb (test_mixed password)
  then Some "Password must contain at least one uppercase letter, one lowercase letter, and one number"
  else None.

End AuthForm.

(** The [profileCompleteness] virtual of the user model
    ([lib/models/User.ts]) *)
Module UserModel.

(** [IFitnessProfile]; an absent field is [None]. *)
Record FitnessProfile : Type := mkFitnessProfile {
  age : option Z;
  weight : option Z;
  height : option Z;
  fitnessLevel : option string;
  goals : option (list string);
  injuries : option (list string);
  allergies : option (list string);
  dietaryRestrictions : option (list string);
  activityLevel : option string;
  preferredWorkoutTypes : option (list string);
  workoutFrequency : option Z
}.

(** [value !== undefined && value !== null] for a field that is no array *)
Definition present {A : Type} (value : option A) : bool :=
  match value with
  | Some _ => true
  | None => false
  end.

(** the same for an array field: [value.length > 0] as well *)
Definition present_array {A : Type} (value : option (list A)) : bool :=
  match value with
  | Some l => (0 <? List.length l)%nat
  | None => false
  end.

(** [Math.round(num / den)] for [den > 0]: the nearest integer, halves up.
    The code computes [(count / 6) * 100] in doubles; for the seven counts
    0..6 the rounded result is that of the exact quotient (0, 17, 33, 50,
    67, 83, 100), none of them being near a half. *)
Definition round_ratio (num den : Z) : Z := (2 * num + den) / (2 * den).

Definition profileCompleteness (fitnessProfile : option FitnessProfile) : Z :=
  match fitnessProfile with
  | None => 0
  | Some p =>
      (* fields: age, weight, height, fitnessLevel, goals, activityLevel *)
      let fields :=
        [ present (age p); present (weight p); present (height p);
          present (fitnessLevel p); present_array (goals p);
          present (activityLevel p) ] in
      let completedFields := List.filter (fun done => done) fields in
      round_ratio (Z.of_nat (List.length completedFields) * 100)
                  (Z.of_nat (List.length fields))
  end.

End UserModel.

(** More concrete collaborators. *)
Module Sample.
Import Me.

Definition alice_record : LeanUser :=
  mkLeanUser "64b7f0c2a1d3e4f5a6b7c8d9" "a@b.com" "Alice"
             Register.default_fitnessProfile None
             "2025-01-01T00:00:00.000Z" "2025-01-02T00:00:00.000Z".

(** A store that is up and holds Alice only. *)
#[global] Instance alice_only : UserLookup := {|
  connectToDatabase := Return tt;
  User_findById id :=
    Return (if String.eqb id (l_id alice_record) then Some alice_record else None)
|}.

(** A store whose connection fails. *)
Definition store_down : UserLookup := {|
  connectToDatabase := Throw (mkError "MongooseError" "connect ECONNREFUSED");
  User_findById _ := Throw (mkError "MongooseError" "connect ECONNREFUSED")
|}.

(** The token [generateToken] issues for Alice at time 1000 under the
    framed format. *)
Definition alice_token : string :=
  match Auth.generateToken Fixture.configured 1000 Fixture.alice with
  | Return token => token
  | Throw _ => ""
  end.

End Sample.

(** How a response of the gate reads to the client. *)
Module Shapes.

(** A refusal: a 401, or a redirect to the login page. *)
Definition is_rejection (r : NextResponse) : bool :=
  match kind r with
  | JsonResponse _ status => status =? 401
  | Redirect target => String.eqb (url_pathname target) "/auth/login"
  | Next _ => false
  end.

(** A request to a protected API path that also carries identity headers
    of its own making. *)
Definition spoofing_request (token : string) : NextRequest :=
  mkRequest "https://fitness.example" "/api/programs"
            {[ "auth-token" := token ]}
            {[ "x-user-id" := "someone-else"; "accept" := "application/json" ]}.

(** A verifier that accepts every token as Alice's, her name padded with
    spaces as a payload may carry it. *)
Definition accepting_padded (token : string) : Result (option JWTPayload) :=
  Return (Some (mkPayload "64b7f0c2a1d3e4f5a6b7c8d9" "a@b.com" " Alice "
                          (Some 1000) (Some 605800))).

(** The headers the gate forwards for [spoofing_request] under
    [accepting_padded]. *)
Definition forwarded_for_alice : gmap string string :=
  <["x-user-name" := "Alice"]>
    (<["x-user-email" := "a@b.com"]>
       (<["x-user-id" := "64b7f0c2a1d3e4f5a6b7c8d9"]>
          (req_headers (spoofing_request "tok")))).

End Shapes.

(** Properties of the character classes of a regular expression. *)
Module RegexClasses.
Import Regex.

(** Every class of [r] cannot tell [f c] from [c]. *)
Fixpoint respects (f : ascii -> ascii) (r : Regex.t) : Prop :=
  match r with
  | Class member => forall c, member (f c) = member c
  | Seq a b | Alt a b => respects f a /\ respects f b
  | Star a => respects f a
  | Void | Eps => True
  end.

(** Every class of [r] lies within [allowed]. *)
Fixpoint within (allowed : ascii -> bool) (r : Regex.t) : Prop :=
  match r with
  | Class member => forall c, member c = true -> allowed c = true
  | Seq a b | Alt a b => within allowed a /\ within allowed b
  | Star a => within allowed a
  | Void | Eps => True
  end.

(** Every character of [s] is in [allowed]. *)
Fixpoint all_chars (allowed : ascii -> bool) (s : string) : bool :=
  match s with
  | String c rest => allowed c && all_chars allowed rest
  | EmptyString => true
  end.

(** Some character of [s] is in [cls]. *)
Fixpoint some_char (cls : ascii -> bool) (s : string) : bool :=
  match s with
  | String c rest => cls c || some_char cls rest
  | EmptyString => false
  end.

End RegexClasses.

(** ** The [bcryptjs] package over its Blowfish core

    [hash], [compare], [genSalt] and the salt validation of [_hash] follow
    the package (version 2, ['$2a$'] hashes); the base64 coding of the salt
    and the Blowfish rounds are kept abstract.  The key schedule reads the
    password bytes cyclically, 72 of them, and no more. *)

Module Bcryptjs.

Class Blowfish : Type := {
  (** [random(BCRYPT_SALT_LEN)]: the 16 salt bytes drawn from the random
      source *)
  random_bytes : string -> string;
  (** [base64_encode(bytes, bytes.length)] *)
  encode_salt : string -> string;
  (** [base64_decode(text, BCRYPT_SALT_LEN)]: at most 16 bytes *)
  decode_salt : string -> string;
  (** the encoded digest of the key schedule run on the key bytes it
      reads, the salt bytes and the iteration count: 31 characters *)
  crypt_raw : string -> string -> Z -> string
}.

Class BlowfishLaws (C : Blowfish) : Prop := {
  random_bytes_length : forall entropy, String.length (random_bytes entropy) = 16%nat;
  encode_salt_length :
    forall bytes, String.length bytes = 16%nat ->
                  String.length (encode_salt bytes) = 22%nat;
  decode_encode_salt :
    forall bytes, String.length bytes = 16%nat ->
                  decode_salt (encode_salt bytes) = bytes;
  crypt_raw_length :
    forall key salt cost, String.length (crypt_raw key salt cost) = 31%nat
}.

(** [s.charAt(i)] *)
Definition charAt (s : string) (i : nat) : string :=
  match String.get i s with
  | Some c => String c EmptyString
  | None => EmptyString
  end.

(** [s.substring(from, to)] for [from <= to] *)
Definition substring_to (s : string) (from to : nat) : string :=
  String.substring from (to - from) s.

(** [parseInt(s, 10)] on a string of at most one character; [None] is
    [NaN]. *)
Definition parseInt (s : string) : option Z :=
  match s with
  | String c EmptyString => Ms.digit c
  | _ => None
  end.

(** [n.toString()] for a number of rounds; [NaN] prints as ["NaN"]. *)
Definition rounds_text (rounds : option Z) : string :=
  match rounds with
  | Some n => NilEmpty.string_of_int (Z.to_int n)
  | None => "NaN"
  end.

(** [stringToBytes]: UTF-8, on 8-bit code units *)
Fixpoint stringToBytes (s : string) : string :=
  match s with
  | String c rest =>
      let n := nat_of_ascii c in
      if (n <? 128)%nat then String c (stringToBytes rest)
      else String (ascii_of_nat (192 + n / 64))
                  (String (ascii_of_nat (128 + n mod 64)) (stringToBytes rest))
  | EmptyString => EmptyString
  end.

Fixpoint copies (n : nat) (s : string) : string :=
  match n with
  | O => EmptyString
  | S k => s ++ copies k s
  end.

(** The bytes the key schedule reads: 18 words of 4 bytes, taken from the
    password bytes cyclically ([_streamtoword]). *)
Definition key_bytes (passwordb : string) : string :=
  String.substring 0 72 (copies 72 passwordb).

Section WithBlowfish.
Context {C : Blowfish}.

(** [genSaltSync(rounds)]: rounds clamped to 4..31 *)
Definition genSalt (rounds : Z) (entropy : string) : string :=
  let rounds := if rounds <? 4 then 4 else if 31 <? rounds then 31 else rounds in
  "$2a$" ++ (if rounds <? 10 then "0" else "") ++ rounds_text (Some rounds)
         ++ "$" ++ encode_salt (random_bytes entropy).

(** [_crypt(passwordb, saltb, rounds)] *)
Definition crypt (passwordb saltb : string) (rounds : option Z) : Result string :=
  let out_of_range :=
    match rounds with
    | Some n => (n <? 4) || (31 <? n)
    | None => false
    end in
  if out_of_range
  then Throw (mkError "Error" "Illegal number of rounds (4-31)")
  else if negb (String.length saltb =? 16)%nat
  then Throw (mkError "Error" "Illegal salt length")
  else
    let cost := match rounds with
                | Some n => 2 ^ n
                | None => 1
                end in
    Return (crypt_raw (key_bytes passwordb) saltb cost).

(** [_hash(s, salt)] *)
Definition hash_with_salt (s salt : string) : Result string :=
  if negb (String.eqb (charAt salt 0) "$") || negb (String.eqb (charAt salt 1) "2")
  then Throw (mkError "Error" "Invalid salt version")
  else
    let versioned := negb (String.eqb (charAt salt 2) "$") in
    let minor := charAt salt 2 in
    if versioned &&
       ((negb (String.eqb minor "a") && negb (String.eqb minor "b")
         && negb (String.eqb minor "y"))
        || negb (String.eqb (charAt salt 3) "$"))
    then Throw (mkError "Error" "Invalid salt revision")
    else
      let offset := if versioned then 4%nat else 3%nat in
      (* Extract number of rounds *)
      if match charAt salt (offset + 2) with
         | String c _ => (36 <? nat_of_ascii c)%nat
         | EmptyString => false
         end
      then Throw (mkError "Error" "Missing salt rounds")
      else
        let r1 := Z.mul 10 <$> parseInt (substring_to salt offset (offset + 1)) in
        let r2 := parseInt (substring_to salt (offset + 1) (offset + 2)) in
        let rounds := match r1, r2 with
                      | Some a, Some b => Some (a + b)
                      | _, _ => None
                      end in
        let real_salt := substring_to salt (offset + 3) (offset + 25) in
        let s := if versioned then s ++ String zero EmptyString else s in
        let passwordb := stringToBytes s in
        let saltb := decode_salt real_salt in
        bytes ← crypt passwordb saltb rounds;
        Return ("$2" ++ (if versioned then minor else "") ++ "$"
                     ++ (match rounds with
                         | Some n => if n <? 10 then "0" else ""
                         | None => ""
                         end)
                     ++ rounds_text rounds ++ "$"
                     ++ encode_salt saltb ++ bytes).

(** [bcrypt.hash(s, rounds)] with a number of rounds *)
Definition hash (s : string) (rounds : Z) (entropy : string) : Result string :=
  hash_with_salt s (genSalt rounds entropy).

(** [bcrypt.compare(s, hash)] *)
Definition compare (s hashed : string) : Result bool :=
  if negb (String.length hashed =? 60)%nat then Return false
  else
    comp ← hash_with_salt s (String.substring 0 29 hashed);
    Return (String.eqb comp hashed).

(** The package as the auth library imports it. *)
#[global] Instance package : Bcrypt := {|
  bcrypt_hash := hash;
  bcrypt_compare := compare
|}.

(** The two variable parts of a twelve-round hash: the text of the salt
    drawn, and the 31 characters computed from the key bytes of the
    password, which [_hash] terminates with a NUL. *)
Definition salt_text (entropy : string) : string :=
  encode_salt (random_bytes entropy).

Definition digest (entropy password : string) : string :=
  crypt_raw (key_bytes (stringToBytes (password ++ String zero EmptyString)))
            (random_bytes entropy) 4096.

End WithBlowfish.

(** A stand-in for the core with the right lengths: the salt bytes are the
    first 16 characters of the entropy padded with dots, their text adds
    six dots, the digest is a checksum padded to 31 characters. *)
Definition pad (n : nat) (s : string) : string :=
  String.substring 0 n (s ++ copies n ".").

#[global] Instance padded_core : Blowfish := {|
  random_bytes entropy := pad 16 entropy;
  encode_salt bytes := bytes ++ "......";
  decode_salt text := String.substring 0 16 text;
  crypt_raw key salt cost :=
    pad 31 (Fixture.mac salt (key ++ rounds_text (Some cost)))
|}.

(** Seventy-two times the letter a. *)
Definition seventy_two_a : string := copies 72 "a".

End Bcryptjs.

(** ** How the code under [src/] reaches the auth library

    [lib/auth.ts] is evaluated when a module that imports it is: the
    middleware and the route handlers, each of which starts with an import
    from ['@/lib/auth'].  Nothing under [src/] imports it when the process
    starts, so a handler is reached through the evaluation of the auth
    library against [process.env]; a module whose evaluation threw throws
    again on every later import.  When the framework evaluates a route
    module is its own choice; the definitions below only say that serving
    a route goes through the imports of its module: the import statement of
    [register/route.ts] (line 4) and of [me/route.ts] (line 3). *)
Module Host.

Section Serve.
Context {J : Jsonwebtoken.Jws} {B : Bcrypt} {S : Register.UserStore}
        {U : Me.UserLookup}.



End Serve.

End Host.

(** * Properties of the request gate *)

Module GateFacts.
Import Middleware Fixture.

Lemma prefix_trans (a : string) : forall b c,
  String.prefix a b = true -> String.prefix b c = true ->
  String.prefix a c = true.
Proof.
  induction a as [|x a IH]; intros [|y b] [|z c]; simpl; try congruence.
  destruct (ascii_dec x y) as [->|]; [|discriminate].
  destruct (ascii_dec y z) as [->|]; [|discriminate].
  intros; eauto.
Qed.

(** Every path that begins with a slash matches the ["/"] entry of the
    public table. *)
Lemma public_catch_all (pathname : string) :
  startsWith pathname "/" = true -> isPublicRoute publicRoutes pathname = true.
Proof.
  intros H. unfold isPublicRoute, publicRoutes, some. simpl.
  rewrite H, orb_true_r. reflexivity.
Qed.

Lemma some_startsWith_slash (routes : list string) (pathname : string) :
  Forall (fun route => startsWith route "/" = true) routes ->
  some (fun route => startsWith pathname route) routes = true ->
  startsWith pathname "/" = true.
Proof.
  intros Hall Hsome. unfold some in Hsome.
  apply existsb_exists in Hsome as (route & Hin & Hpre).
  rewrite List.Forall_forall in Hall.
  unfold startsWith in *. eapply prefix_trans; [apply Hall, Hin | exact Hpre].
Qed.

Lemma protected_starts_with_slash (pathname : string) :
  isProtectedRoute protectedRoutes pathname = true ->
  startsWith pathname "/" = true.
Proof.
  apply some_startsWith_slash. unfold protectedRoutes.
  repeat constructor.
Qed.

Lemma protected_api_starts_with_slash (pathname : string) :
  isProtectedApiRoute protectedApiRoutes pathname = true ->
  startsWith pathname "/" = true.
Proof.
  apply some_startsWith_slash. unfold protectedApiRoutes.
  repeat constructor.
Qed.

(** With the tables of the file, a request whose path begins with a slash
    is forwarded untouched, before any cookie is read. *)
Lemma middleware_forwards_every_path
  (verifyToken : string -> Result (option JWTPayload)) (request : NextRequest) :
  startsWith (req_pathname request) "/" = true ->
  middleware verifyToken request = ([], Return NextResponse.next).
Proof.
  intros H. unfold middleware, middlewareWith.
  destruct (isStaticOrInternal _); [reflexivity|].
  rewrite (public_catch_all _ H). reflexivity.
Qed.

Lemma middleware_forwards_every_path_witness :
  startsWith "/api/user" "/" = true /\
  middleware (fun _ => Return None) (request "/api/user" ∅)
  = ([], Return NextResponse.next).
Proof.
  split; [reflexivity|].
  apply (middleware_forwards_every_path (fun _ => Return None)
           (request "/api/user" ∅)).
  reflexivity.
Defined.

(** With the tables of the file and a verifier that does not throw, the
    gate answers every request, whatever its path and cookies, with a plain
    forward. *)
Lemma middleware_never_rejects
  (verifyToken : string -> Result (option JWTPayload)) (request : NextRequest) :
  (forall token, exists r, verifyToken token = Return r) ->
  snd (middleware verifyToken request) = Return NextResponse.next.
Proof.
  intros Htotal.
  destruct (startsWith (req_pathname request) "/") eqn:Hslash.
  { rewrite middleware_forwards_every_path by assumption. reflexivity. }
  assert (Hp : isProtectedRoute protectedRoutes (req_pathname request) = false).
  { destruct (isProtectedRoute _ _) eqn:E; [|reflexivity].
    apply protected_starts_with_slash in E. congruence. }
  assert (Ha : isProtectedApiRoute protectedApiRoutes (req_pathname request) = false).
  { destruct (isProtectedApiRoute _ _) eqn:E; [|reflexivity].
    apply protected_api_starts_with_slash in E. congruence. }
  assert (Hl : startsWith (req_pathname request) "/auth/login" = false).
  { destruct (startsWith _ "/auth/login") eqn:E; [|reflexivity].
    unfold startsWith in *.
    rewrite (prefix_trans "/" "/auth/login" _ eq_refl E) in Hslash. congruence. }
  assert (Hs : startsWith (req_pathname request) "/sign-up" = false).
  { destruct (startsWith _ "/sign-up") eqn:E; [|reflexivity].
    unfold startsWith in *.
    rewrite (prefix_trans "/" "/sign-up" _ eq_refl E) in Hslash. congruence. }
  unfold middleware, middlewareWith.
  destruct (isStaticOrInternal _); [reflexivity|].
  destruct (_ || _); [reflexivity|].
  rewrite Hp, Ha, Hl, Hs. unfold cookies_get, call_verifyToken.
  destruct (req_cookies request !! "auth-token") as [tok|]; simpl;
    [|reflexivity].
  destruct (negb (String.eqb tok "")); simpl; [|reflexivity].
  destruct (Htotal tok) as [[p|] ->]; reflexivity.
Qed.

Lemma middleware_never_rejects_witness :
  (forall token, exists r, (fun _ : string => Return (@None JWTPayload)) token = Return r) /\
  snd (middleware (fun _ => Return None)
         (request "/profile" {[ "auth-token" := "stale" ]}))
  = Return NextResponse.next.
Proof.
  split; [intros; eexists; reflexivity|].
  apply (middleware_never_rejects (fun _ => Return None)
           (request "/profile" {[ "auth-token" := "stale" ]})).
  intros; eexists; reflexivity.
Defined.

(** ** The reject branches, for any route tables

    What the gate answers once a request is past the static-file and the
    public-route checks. *)

Section Branches.
Variables publicRoutes' protectedRoutes' protectedApiRoutes' : list string.
Variable verifyToken : string -> Result (option JWTPayload).
Variable request : NextRequest.

Let pathname := req_pathname request.
Let gate := middlewareWith publicRoutes' protectedRoutes' protectedApiRoutes'
                           verifyToken request.

Hypothesis not_static : isStaticOrInternal pathname = false.
Hypothesis not_public :
  isPublicRoute publicRoutes' pathname || String.eqb pathname "/api/auth/me"
  = false.

Lemma missing_token_api_branch :
  truthy (req_cookies request !! "auth-token") = false ->
  isProtectedApiRoute protectedApiRoutes' pathname = true ->
  gate = ([CookieRead "auth-token"],
          Return (NextResponse.json (error_body "Authentication required") 401)).
Proof.
  intros Htok Hapi. unfold gate, middlewareWith. fold pathname.
  rewrite not_static, not_public. unfold cookies_get. simpl.
  rewrite Htok, Hapi, orb_true_r. reflexivity.
Qed.

Lemma missing_token_page_branch :
  truthy (req_cookies request !! "auth-token") = false ->
  isProtectedApiRoute protectedApiRoutes' pathname = false ->
  isProtectedRoute protectedRoutes' pathname = true ->
  gate = ([CookieRead "auth-token"],
          Return (NextResponse.redirect
                    (mkURL (req_origin request) "/auth/login"
                           [("callbackUrl", pathname)]))).
Proof.
  intros Htok Hapi Hprot. unfold gate, middlewareWith. fold pathname.
  rewrite not_static, not_public. unfold cookies_get. simpl.
  rewrite Htok, Hapi, Hprot. reflexivity.
Qed.

Lemma invalid_token_api_branch (token : string) :
  req_cookies request !! "auth-token" = Some token -> token <> "" ->
  verifyToken token = Return None ->
  isProtectedApiRoute protectedApiRoutes' pathname = true ->
  gate = ([CookieRead "auth-token"; TokenVerified token],
          Return (NextResponse.json (error_body "Invalid or expired token") 401)).
Proof.
  intros Hcookie Hne Hverify Hapi. unfold gate, middlewareWith. fold pathname.
  rewrite not_static, not_public. unfold cookies_get, call_verifyToken. simpl.
  rewrite Hcookie. simpl.
  apply String.eqb_neq in Hne. rewrite Hne. simpl.
  rewrite Hverify, Hapi, orb_true_r. reflexivity.
Qed.

Lemma invalid_token_page_branch (token : string) :
  req_cookies request !! "auth-token" = Some token -> token <> "" ->
  verifyToken token = Return None ->
  isProtectedApiRoute protectedApiRoutes' pathname = false ->
  isProtectedRoute protectedRoutes' pathname = true ->
  gate = ([CookieRead "auth-token"; TokenVerified token],
          Return (mkResponse
                    (Redirect (mkURL (req_origin request) "/auth/login" []))
                    [CookieDelete "auth-token"])).
Proof.
  intros Hcookie Hne Hverify Hapi Hprot. unfold gate, middlewareWith.
  fold pathname.
  rewrite not_static, not_public. unfold cookies_get, call_verifyToken. simpl.
  rewrite Hcookie. simpl.
  apply String.eqb_neq in Hne. rewrite Hne. simpl.
  rewrite Hverify, Hapi, Hprot. reflexivity.
Qed.

End Branches.

(** ** The claims about the gate *)

(** C10.  A request whose path contains a dot, or starts with [/_next] or
    [/static], is answered with a plain [NextResponse.next()]; the log is
    empty, so the [auth-token] cookie is neither read nor verified.  This
    holds for any route tables, any verifier and any cookies, hence also
    for a path under a protected prefix. *)
Theorem static_bypass_skips_authentication
  (publicRoutes' protectedRoutes' protectedApiRoutes' : list string)
  (verifyToken : string -> Result (option JWTPayload)) (request : NextRequest) :
  includes (req_pathname request) "." = true \/
  startsWith (req_pathname request) "/_next" = true \/
  startsWith (req_pathname request) "/static" = true ->
  middlewareWith publicRoutes' protectedRoutes' protectedApiRoutes'
                 verifyToken request
  = ([], Return NextResponse.next).
Proof.
  intros H. unfold middlewareWith, isStaticOrInternal.
  destruct H as [H | [H | H]]; rewrite H;
    rewrite ?orb_true_r; reflexivity.
Qed.

Lemma static_bypass_skips_authentication_witness :
  isProtectedApiRoute protectedApiRoutes "/api/programs/x.json" = true /\
  (includes "/api/programs/x.json" "." = true \/
   startsWith "/api/programs/x.json" "/_next" = true \/
   startsWith "/api/programs/x.json" "/static" = true) /\
  middlewareWith publicRoutes_listed protectedRoutes protectedApiRoutes
    (fun _ => Return None)
    (request "/api/programs/x.json" {[ "auth-token" := "stale" ]})
  = ([], Return NextResponse.next).
Proof.
  split; [reflexivity|]. split; [left; reflexivity|].
  apply (static_bypass_skips_authentication publicRoutes_listed protectedRoutes
           protectedApiRoutes (fun _ => Return None)
           (request "/api/programs/x.json" {[ "auth-token" := "stale" ]})).
  left; reflexivity.
Defined.

(** C1, at the code.  [/api/programs] and [/profile] are in the protected
    tables, and a request to either without any cookie is forwarded: both
    begin with a slash and so match the ["/"] entry of the public table. *)
Theorem missing_token_is_forwarded
  (verifyToken : string -> Result (option JWTPayload)) :
  isProtectedApiRoute protectedApiRoutes "/api/programs" = true /\
  middleware verifyToken (request "/api/programs" ∅)
  = ([], Return NextResponse.next) /\
  isProtectedRoute protectedRoutes "/profile" = true /\
  middleware verifyToken (request "/profile" ∅)
  = ([], Return NextResponse.next).
Proof. repeat split; reflexivity. Qed.

(** C2, at the code.  A request to [/api/programs] or [/profile] carrying
    any [auth-token] cookie is forwarded without the token being verified,
    and no cookie is deleted. *)
Theorem invalid_token_is_forwarded
  (verifyToken : string -> Result (option JWTPayload)) (token : string) :
  middleware verifyToken (request "/api/programs" {[ "auth-token" := token ]})
  = ([], Return NextResponse.next) /\
  middleware verifyToken (request "/profile" {[ "auth-token" := token ]})
  = ([], Return NextResponse.next).
Proof. split; reflexivity. Qed.

(** C3, at the code.  [/auth/login] and [/auth/register] are entries of the
    public table, so a request to them is forwarded whatever token it
    carries, also when ["/"] is taken out of the table; the redirect to
    [/profile] is reached only for paths outside the public table. *)
Theorem authenticated_login_page_is_forwarded
  (verifyToken : string -> Result (option JWTPayload)) (token : string) :
  middleware verifyToken (request "/auth/login" {[ "auth-token" := token ]})
  = ([], Return NextResponse.next) /\
  middleware verifyToken (request "/auth/register" {[ "auth-token" := token ]})
  = ([], Return NextResponse.next) /\
  middleware_listed verifyToken
    (request "/auth/login" {[ "auth-token" := token ]})
  = ([], Return NextResponse.next) /\
  middleware_listed verifyToken
    (request "/auth/register" {[ "auth-token" := token ]})
  = ([], Return NextResponse.next).
Proof. repeat split; reflexivity. Qed.

(** C9, at the code.  [/profile] is forwarded by the middleware with or
    without a token.  With ["/"] taken out of the public table the two
    reject branches are reached: the missing-token redirect carries
    [callbackUrl=/profile], the invalid-token redirect carries no query
    parameter at all. *)
Theorem invalid_token_redirect_drops_callbackUrl :
  middleware rejecting (request "/profile" {[ "auth-token" := "stale" ]})
  = ([], Return NextResponse.next) /\
  middleware_listed rejecting (request "/profile" ∅)
  = ([CookieRead "auth-token"],
     Return (NextResponse.redirect
               (mkURL "https://fitness.example" "/auth/login"
                      [("callbackUrl", "/profile")]))) /\
  middleware_listed rejecting (request "/profile" {[ "auth-token" := "stale" ]})
  = ([CookieRead "auth-token"; TokenVerified "stale"],
     Return (mkResponse
               (Redirect (mkURL "https://fitness.example" "/auth/login" []))
               [CookieDelete "auth-token"])).
Proof. repeat split; reflexivity. Qed.

End GateFacts.

(** * Properties of the auth library *)

Module AuthFacts.
Import Jsonwebtoken Auth Fixture.
#[local] Arguments String.append : simpl nomatch.

(** ** The framed token format obeys the laws of jws *)

Lemma append_assoc (a b c : string) : (a ++ b) ++ c = a ++ (b ++ c).
Proof. induction a as [|x a IH]; simpl; [reflexivity | now rewrite IH]. Qed.

Lemma append_empty_r (a : string) : a ++ "" = a.
Proof. induction a as [|x a IH]; simpl; [reflexivity | now rewrite IH]. Qed.

Lemma count_ones_frame (n : nat) (s : string) :
  count_ones (ones n ++ String "0" s) = (n, String "0" s).
Proof.
  induction n as [|n IH]; simpl; [reflexivity|].
  now rewrite IH.
Qed.

Lemma split_at_app (s r : string) :
  split_at (String.length s) (s ++ r) = Some (s, r).
Proof.
  induction s as [|c s IH]; simpl.
  - now destruct r.
  - now rewrite IH.
Qed.

Lemma unframe_frame (s r : string) : unframe (frame s ++ r) = Some (s, r).
Proof.
  unfold unframe, frame. rewrite append_assoc. simpl.
  rewrite count_ones_frame. simpl. apply split_at_app.
Qed.

Lemma unframe_frame_end (s : string) : unframe (frame s) = Some (s, "").
Proof. rewrite <- (append_empty_r (frame s)). apply unframe_frame. Qed.

Lemma text_time_time_text (t : option Z) : text_time (time_text t) = Some t.
Proof.
  destruct t as [z|]; simpl; [|reflexivity].
  rewrite NilEmpty.isi. simpl. now rewrite DecimalZ.of_to.
Qed.

Lemma text_payload_payload_text (p : JWTPayload) :
  text_payload (payload_text p) = Some p.
Proof.
  unfold text_payload, payload_text.
  repeat (rewrite unframe_frame; simpl).
  rewrite unframe_frame_end. simpl.
  rewrite !text_time_time_text. simpl. now destruct p.
Qed.

Lemma token_parts_sign (p : JWTPayload) (secret : string) :
  token_parts (jws_sign p secret)
  = Some (mac secret (payload_text p), payload_text p).
Proof.
  unfold token_parts. simpl.
  rewrite unframe_frame. simpl. rewrite unframe_frame_end. reflexivity.
Qed.

#[global] Instance framed_jws_laws : JwsLaws framed_jws.
Proof.
  split; intros p secret.
  - change (jws_decode (jws_sign p secret))
      with ('(_, body) ← token_parts (jws_sign p secret); text_payload body).
    rewrite token_parts_sign. simpl. apply text_payload_payload_text.
  - change (jws_verify (jws_sign p secret) secret)
      with (match token_parts (jws_sign p secret) with
            | Some (tag, body) => String.eqb tag (mac secret body)
            | None => false
            end).
    rewrite token_parts_sign. apply String.eqb_refl.
Qed.

(** ** Loading the module *)

Lemma load_inv (env : gmap string string) (auth : Loaded) :
  load env = Return auth ->
  exists secret, env !! "JWT_SECRET" = Some secret /\ secret <> "" /\
                 JWT_SECRET auth = Some secret.
Proof.
  unfold load. destruct (env !! "JWT_SECRET") as [secret|] eqn:E; simpl;
    [|discriminate].
  destruct (String.eqb secret "") eqn:Ne; simpl; [discriminate|].
  intros [= <-]. exists secret. apply String.eqb_neq in Ne. auto.
Qed.

Lemma truthy_Some (s : string) : s <> "" -> truthy (Some s) = true.
Proof. intros H. apply String.eqb_neq in H. simpl. now rewrite H. Qed.

Section WithJws.
Context {J : Jws}.

Lemma generateToken_configured (auth : Loaded) (secret : string) (now : Z)
  (c : Claims) :
  JWT_SECRET auth = Some secret -> secret <> "" ->
  generateToken auth now c
  = Return (jws_sign (mkPayload (c_userId c) (c_email c) (c_name c)
                                (Some now) (Some (now + 604800)))
                     secret).
Proof.
  intros Hs Hne. unfold generateToken, sign. rewrite Hs, truthy_Some by assumption.
  reflexivity.
Qed.

End WithJws.

Example load_examples :
  load production = Return configured /\
  load ∅ = Throw missing_secret /\
  load {[ "JWT_SECRET" := "" ]} = Throw missing_secret /\
  load {[ "NODE_ENV" := "production" ]} = Throw missing_secret.
Proof. repeat split; reflexivity. Qed.

Example ms_spans :
  Ms.ms "7d" = Some 604800000 /\ Ms.ms "10h" = Some 36000000 /\
  Ms.ms "d" = None /\ Ms.ms "7x" = None.
Proof. repeat split; reflexivity. Qed.

(** The four ways a token fails, on the framed tokens: not a token, signed
    under another secret, expired, and expiring this very second. *)
Example verifyToken_rejections :
  verifyToken configured 1000 "garbage" = Return None /\
  (token ← generateToken (mkLoaded (Some "other")) 1000 alice;
   verifyToken configured 1000 token) = Return None /\
  (token ← generateToken configured 1000 alice;
   verifyToken configured 700000 token) = Return None /\
  (token ← generateToken configured 1000 alice;
   verifyToken configured 605800 token) = Return None.
Proof. repeat split; vm_compute; reflexivity. Qed.

Example verifyToken_last_second :
  (token ← generateToken configured 1000 alice;
   verifyToken configured 605799 token)
  = Return (Some (mkPayload "64b7f0c2a1d3e4f5a6b7c8d9" "a@b.com" "Alice"
                            (Some 1000) (Some 605800))).
Proof. vm_compute. reflexivity. Qed.

(** C5.  [verifyToken] always returns, never throws.  It returns [null] for
    a token that does not decode, for a signature that does not verify
    under the configured secret, and for an expiry that has passed.  A
    non-null result is the decoded payload of a token whose signature
    verifies under the configured secret and whose expiry, if any, lies
    after the current time. *)
Theorem verifyToken_never_throws {J : Jws} (auth : Loaded) (now : Z)
  (token : string) :
  (exists r, verifyToken auth now token = Return r) /\
  (jws_decode token = None -> verifyToken auth now token = Return None) /\
  (forall secret, JWT_SECRET auth = Some secret ->
     jws_verify token secret = false ->
     verifyToken auth now token = Return None) /\
  (forall p e, jws_decode token = Some p -> exp p = Some e -> e <= now ->
     verifyToken auth now token = Return None) /\
  (forall p, verifyToken auth now token = Return (Some p) ->
     exists secret,
       JWT_SECRET auth = Some secret /\ secret <> "" /\
       jws_verify token secret = true /\
       jws_decode token = Some p /\
       (forall e, exp p = Some e -> now < e)).
Proof.
  unfold verifyToken, verify.
  split; [|split; [|split; [|split]]].
  - destruct (jws_decode token) as [p|]; [|eexists; reflexivity].
    destruct (JWT_SECRET auth) as [secret|]; [|eexists; reflexivity].
    destruct (truthy (Some secret)); [|eexists; reflexivity].
    destruct (negb (jws_verify token secret)); [eexists; reflexivity|].
    destruct (exp p) as [e|]; [|eexists; reflexivity].
    destruct (e <=? now); eexists; reflexivity.
  - intros ->. reflexivity.
  - intros secret -> Hsig. rewrite Hsig.
    destruct (jws_decode token); [|reflexivity].
    destruct (truthy (Some secret)); reflexivity.
  - intros p e -> He Hle. rewrite He.
    destruct (JWT_SECRET auth) as [secret|]; [|reflexivity].
    destruct (truthy (Some secret)); [|reflexivity].
    destruct (negb (jws_verify token secret)); [reflexivity|].
    apply Z.leb_le in Hle. rewrite Hle. reflexivity.
  - intros p.
    destruct (jws_decode token) as [q|]; [|discriminate].
    destruct (JWT_SECRET auth) as [secret|]; [|discriminate].
    destruct (truthy (Some secret)) eqn:Ht; [|discriminate].
    destruct (jws_verify token secret) eqn:Hsig; [|discriminate].
    simpl.
    assert (Hne : secret <> "").
    { intros ->. discriminate. }
    destruct (exp q) as [e|] eqn:He.
    + destruct (e <=? now) eqn:Hle; [discriminate|].
      intros [= <-]. exists secret. repeat split; try assumption.
      intros e' He'. rewrite He in He'. injection He' as <-.
      now apply Z.leb_gt in Hle.
    + intros [= <-]. exists secret. repeat split; try assumption.
      intros e' He'. rewrite He in He'. discriminate.
Qed.

(** C4.  Round trip.  For a loaded module (so a configured secret), any
    claims [c], issue time [now] and verification time [t] before the
    seven days have elapsed, [generateToken] returns a token and
    [verifyToken] on it returns a payload with the [userId], [email] and
    [name] of [c], stamped with [iat = now] and [exp = now + 604800]. *)
Theorem verify_generate_roundtrip {J : Jws} {L : JwsLaws J}
  (env : gmap string string) (auth : Loaded) (c : Claims) (now t : Z) :
  load env = Return auth ->
  now <= t < now + 7 * 24 * 60 * 60 ->
  exists token p,
    generateToken auth now c = Return token /\
    verifyToken auth t token = Return (Some p) /\
    userId p = c_userId c /\ email p = c_email c /\ name p = c_name c /\
    iat p = Some now /\ exp p = Some (now + 604800).
Proof.
  intros Hload Ht.
  destruct (load_inv env auth Hload) as (secret & _ & Hne & Hs).
  eexists. eexists. split.
  { eapply generateToken_configured; eassumption. }
  split.
  - unfold verifyToken, verify.
    rewrite decode_sign, Hs, truthy_Some, verify_sign by assumption. simpl.
    destruct (now + 604800 <=? t) eqn:Hle; [|reflexivity].
    apply Z.leb_le in Hle. lia.
  - repeat split; reflexivity.
Qed.

Lemma verify_generate_roundtrip_witness :
  load production = Return configured /\
  1000 <= 1000 < 1000 + 7 * 24 * 60 * 60 /\
  exists token p,
    generateToken configured 1000 alice = Return token /\
    verifyToken configured 1000 token = Return (Some p) /\
    userId p = c_userId alice /\ email p = c_email alice /\
    name p = c_name alice /\
    iat p = Some 1000 /\ exp p = Some (1000 + 604800).
Proof.
  split; [reflexivity|]. split; [lia|].
  apply (@verify_generate_roundtrip framed_jws framed_jws_laws
           production configured alice 1000 1000); [reflexivity | lia].
Defined.

End AuthFacts.

(** * The matcher decides the language of its expression *)

Module RegexFacts.
Import Regex.
#[local] Arguments String.append : simpl nomatch.

Lemma append_empty (a b : string) : a ++ b = "" -> a = "" /\ b = "".
Proof. destruct a; simpl; [auto | discriminate]. Qed.

(** How a non-empty concatenation splits: the head is in the right part or
    in the left. *)
Lemma append_cons (a b : string) (c : ascii) (w : string) :
  a ++ b = String c w ->
  (a = "" /\ b = String c w) \/ (exists a', a = String c a' /\ w = a' ++ b).
Proof.
  destruct a as [|x a]; simpl; intros H.
  - left. auto.
  - right. injection H as -> <-. eauto.
Qed.

Lemma lang_void (w : string) : ~ lang Void w.
Proof. intros H. inversion H. Qed.

Lemma lang_eps_inv (w : string) : lang Eps w -> w = "".
Proof. intros H. now inversion H. Qed.

Lemma lang_seq_inv (r s : t) (w : string) :
  lang (Seq r s) w -> exists a b, w = a ++ b /\ lang r a /\ lang s b.
Proof. intros H. inversion H; subst. eauto. Qed.

Lemma lang_alt_inv (r s : t) (w : string) :
  lang (Alt r s) w -> lang r w \/ lang s w.
Proof. intros H. inversion H; subst; auto. Qed.

Lemma nullable_spec (r : t) : nullable r = true <-> lang r "".
Proof.
  induction r as [| |m|r IHr s IHs|r IHr s IHs|r IHr]; simpl.
  - split; [discriminate | intros H; now apply lang_void in H].
  - split; [constructor | reflexivity].
  - split; [discriminate | intros H; inversion H].
  - rewrite andb_true_iff, IHr, IHs. split.
    + intros [Hr Hs]. exact (lang_seq r s "" "" Hr Hs).
    + intros H. apply lang_seq_inv in H as (a & b & E & Ha & Hb).
      symmetry in E. apply append_empty in E as [-> ->]. auto.
  - rewrite orb_true_iff, IHr, IHs. split.
    + intros [H|H]; [now apply lang_alt_l | now apply lang_alt_r].
    + apply lang_alt_inv.
  - split; [constructor | reflexivity].
Qed.

Lemma seq_spec (r s : t) (w : string) : lang (seq r s) w <-> lang (Seq r s) w.
Proof.
  assert (Hvoid_l : forall s', lang (Seq Void s') w <-> lang Void w).
  { intros s'. split; intros H; [|now apply lang_void in H].
    apply lang_seq_inv in H as (a & b & _ & Ha & _). now apply lang_void in Ha. }
  assert (Hvoid_r : forall r', lang (Seq r' Void) w <-> lang Void w).
  { intros r'. split; intros H; [|now apply lang_void in H].
    apply lang_seq_inv in H as (a & b & _ & _ & Hb). now apply lang_void in Hb. }
  assert (Heps : forall s', lang s' w <-> lang (Seq Eps s') w).
  { intros s'. split; intros H.
    - exact (lang_seq Eps s' "" w lang_eps H).
    - apply lang_seq_inv in H as (a & b & -> & Ha & Hb).
      apply lang_eps_inv in Ha as ->. exact Hb. }
  destruct r; destruct s; simpl; try reflexivity;
    first [ symmetry; apply Hvoid_l | symmetry; apply Hvoid_r | apply Heps ].
Qed.

Lemma alt_spec (r s : t) (w : string) : lang (alt r s) w <-> lang (Alt r s) w.
Proof.
  assert (Hl : forall s', lang s' w <-> lang (Alt Void s') w).
  { intros s'. split; intros H; [now apply lang_alt_r|].
    apply lang_alt_inv in H as [H|H]; [now apply lang_void in H | exact H]. }
  assert (Hr : forall r', lang r' w <-> lang (Alt r' Void) w).
  { intros r'. split; intros H; [now apply lang_alt_l|].
    apply lang_alt_inv in H as [H|H]; [exact H | now apply lang_void in H]. }
  destruct r; destruct s; simpl; try reflexivity;
    first [ apply Hl | apply Hr ].
Qed.

(** A non-empty string of [Star r] starts with a non-empty string of [r]. *)
Lemma lang_star_cons_inv (r : t) (c : ascii) (w : string) :
  lang (Star r) (String c w) ->
  exists a b, w = a ++ b /\ lang r (String c a) /\ lang (Star r) b.
Proof.
  intros H. remember (Star r) as sr eqn:Esr. remember (String c w) as cw eqn:Ecw.
  induction H as [| | | | | |r' a b Ha _ Hb IHb]; try discriminate.
  injection Esr as ->.
  apply append_cons in Ecw as [[-> ->] | (a' & -> & ->)].
  - apply IHb; reflexivity.
  - eauto.
Qed.

Lemma deriv_spec (c : ascii) (r : t) :
  forall w, lang (deriv c r) w <-> lang r (String c w).
Proof.
  induction r as [| |m|r IHr s IHs|r IHr s IHs|r IHr]; intros w; simpl.
  - split; intros H; inversion H.
  - split; intros H; inversion H.
  - destruct (m c) eqn:Hm; split; intros H.
    + apply lang_eps_inv in H as ->. now constructor.
    + inversion H; subst. constructor.
    + now apply lang_void in H.
    + inversion H; subst. congruence.
  - rewrite alt_spec. split.
    + intros H. apply lang_alt_inv in H as [H|H].
      * apply seq_spec, lang_seq_inv in H as (a & b & -> & Ha & Hb).
        apply IHr in Ha. exact (lang_seq r s (String c a) b Ha Hb).
      * destruct (nullable r) eqn:Hn; [|now apply lang_void in H].
        apply nullable_spec in Hn. apply IHs in H.
        exact (lang_seq r s "" (String c w) Hn H).
    + intros H. apply lang_seq_inv in H as (a & b & E & Ha & Hb).
      symmetry in E. apply append_cons in E as [[-> ->] | (a' & -> & ->)].
      * apply lang_alt_r. apply nullable_spec in Ha. rewrite Ha.
        now apply IHs.
      * apply lang_alt_l, seq_spec. apply lang_seq; [now apply IHr | exact Hb].
  - rewrite alt_spec. split.
    + intros H. apply lang_alt_inv in H as [H|H].
      * apply lang_alt_l. now apply IHr.
      * apply lang_alt_r. now apply IHs.
    + intros H. apply lang_alt_inv in H as [H|H].
      * apply lang_alt_l. now apply IHr.
      * apply lang_alt_r. now apply IHs.
  - rewrite seq_spec. split.
    + intros H. apply lang_seq_inv in H as (a & b & -> & Ha & Hb).
      apply IHr in Ha. exact (lang_star_cons r (String c a) b Ha Hb).
    + intros H. apply lang_star_cons_inv in H as (a & b & -> & Ha & Hb).
      apply lang_seq; [now apply IHr | exact Hb].
Qed.

(** [matches r w] holds exactly when [w] is a string of [r]. *)
Lemma matches_spec (w : string) : forall r, matches r w = true <-> lang r w.
Proof.
  induction w as [|c w IH]; intros r; simpl.
  - apply nullable_spec.
  - rewrite IH. apply deriv_spec.
Qed.

End RegexFacts.

(** * Properties of the registration endpoint *)

Module RegisterFacts.
Import Jsonwebtoken Auth Regex Register Fixture.

(** Runs the binds and returns of [Result] that are ready to run. *)
Ltac run_result := cbn [mbind result_bind mret result_ret try_catch].

Example emailRegex_accepts :
  List.map (matches emailRegex)
    ["a@b.com"; "first.last@mail.example.org"; "A_1-b@c-d.co.uk"]
  = [true; true; true].
Proof. reflexivity. Qed.

Example emailRegex_rejects :
  List.map (matches emailRegex)
    [""; "a@b"; "a@b.c"; "a b@c.com"; "a..b@c.de"; "x@y.info"; "a@b.com "]
  = [false; false; false; false; false; false; false].
Proof. reflexivity. Qed.

Example trim_and_lower :
  trim "  Al  " = "Al" /\ toLowerCase "A@B.Com" = "a@b.com".
Proof. split; reflexivity. Qed.

(** The handler answers every request: whatever is thrown inside the [try]
    block becomes a 409, 400 or 500 response. *)
Lemma POST_always_responds {J : Jws} {B : Bcrypt} {S : UserStore}
  (auth : Loaded) (env : gmap string string) (now : Z) (entropy : string)
  (request_json : Result Body) :
  exists response, POST auth env now entropy request_json = Return response.
Proof.
  unfold POST. destruct (POST_body auth env now entropy request_json) as [r|e].
  - exists r. reflexivity.
  - unfold try_catch, POST_catch.
    destruct (includes _ _); [eexists; reflexivity|].
    destruct (String.eqb _ _); eexists; reflexivity.
Qed.

Lemma email_not_empty (email : string) :
  matches emailRegex email = true -> truthy (Some email) = true.
Proof.
  destruct email; [discriminate | reflexivity].
Qed.

Lemma long_not_empty (n : nat) (s : string) :
  (S n <= String.length s)%nat -> truthy (Some s) = true.
Proof.
  destruct s; simpl; [lia | reflexivity].
Qed.

Lemma trimmed_not_empty (n : nat) (s : string) :
  (S n <= String.length (trim s))%nat -> truthy (Some s) = true.
Proof.
  destruct s; [vm_compute; lia | reflexivity].
Qed.

(** C7.  A registration that passes every check of the handler and meets a
    working store is answered with status 201; the response sets exactly one
    cookie, [auth-token], holding the token issued for the saved user, with
    [httpOnly], [sameSite] ['strict'], [secure] exactly when [NODE_ENV] is
    ['production'], [maxAge] 604800 seconds and [path] ['/']; and the [user]
    object of the body has no [password] field. *)
Theorem register_success {J : Jws} {B : Bcrypt} {S : UserStore}
  (env : gmap string string) (auth : Loaded) (now : Z) (entropy : string)
  (body : Body) (email password name hashed : string) (savedUser : UserDoc) :
  load env = Return auth ->
  connectToDatabase = Return tt ->
  b_email body = Some email ->
  b_password body = Some password ->
  b_name body = Some name ->
  matches emailRegex email = true ->
  (6 <= String.length password)%nat ->
  (truthy (b_confirmPassword body) = true ->
   b_confirmPassword body = Some password) ->
  (2 <= String.length (trim name))%nat ->
  (String.length name <= 50)%nat ->
  User_findOne (toLowerCase email) = Return None ->
  hashPassword entropy password = Return hashed ->
  User_save (mkNewUser (trim (toLowerCase email)) hashed (trim name)
                       default_fitnessProfile [] false)
  = Return savedUser ->
  exists token body_json user,
    generateToken auth now
      (mkClaims (u_id savedUser) (u_email savedUser) (u_name savedUser))
    = Return token /\
    POST auth env now entropy (Return body)
    = Return (mkResponse
                (JsonResponse body_json 201)
                [CookieSet "auth-token" token
                   {| httpOnly := true;
                      secure := bool_decide (env !! "NODE_ENV" = Some "production");
                      sameSite := "strict";
                      maxAge := 604800;
                      path := "/" |}]) /\
    json_field "user" body_json = Some user /\
    json_field "password" user = None.
Proof.
  intros Hload Hdb He Hp Hn Hmail Hlen Hconfirm Htrim Hmax Hfind Hhash Hsave.
  destruct (AuthFacts.load_inv env auth Hload) as (secret & _ & Hne & Hs).
  pose proof (AuthFacts.generateToken_configured auth secret now
                (mkClaims (u_id savedUser) (u_email savedUser) (u_name savedUser))
                Hs Hne) as Htoken.
  eexists. eexists. eexists. split; [exact Htoken|].
  split; [|split].
  - unfold POST, POST_body.
    rewrite Hdb. run_result.
    rewrite He, Hp, Hn.
    cbn [str].
    rewrite (email_not_empty _ Hmail), (long_not_empty 5 _ Hlen),
      (trimmed_not_empty 1 _ Htrim), Hmail.
    cbn [negb orb].
    assert (Hl1 : (String.length password <? 6)%nat = false)
      by (apply Nat.ltb_ge; lia).
    assert (Hl2 : (String.length (trim name) <? 2)%nat = false)
      by (apply Nat.ltb_ge; lia).
    assert (Hl3 : (50 <? String.length name)%nat = false)
      by (apply Nat.ltb_ge; lia).
    assert (Hc : truthy (b_confirmPassword body) &&
                 negb (String.eqb password (str (b_confirmPassword body))) = false).
    { destruct (truthy (b_confirmPassword body)) eqn:T; [|reflexivity].
      rewrite (Hconfirm eq_refl). simpl. now rewrite String.eqb_refl. }
    rewrite Hl1, Hc, Hl2, Hl3, Hfind. run_result.
    rewrite Hhash. run_result.
    rewrite Hsave. run_result.
    rewrite Htoken. reflexivity.
  - reflexivity.
  - reflexivity.
Qed.

Lemma register_success_witness :
  exists token body_json user,
    generateToken configured 1000
      (mkClaims "64b7f0c2a1d3e4f5a6b7c8d9" "a@b.com" "Alice")
    = Return token /\
    POST configured production 1000 "salt"
      (Return (mkBody (Some "a@b.com") (Some "Abcdef12") (Some "Alice") None))
    = Return (mkResponse
                (JsonResponse body_json 201)
                [CookieSet "auth-token" token
                   {| httpOnly := true; secure := true; sameSite := "strict";
                      maxAge := 604800; path := "/" |}]) /\
    json_field "user" body_json = Some user /\
    json_field "password" user = None.
Proof.
  exact (@register_success framed_jws framed_bcrypt empty_store
           production configured 1000 "salt"
           (mkBody (Some "a@b.com") (Some "Abcdef12") (Some "Alice") None)
           "a@b.com" "Abcdef12" "Alice" _ _
           eq_refl eq_refl eq_refl eq_refl eq_refl eq_refl
           ltac:(vm_compute; lia) ltac:(discriminate)
           ltac:(vm_compute; lia) ltac:(vm_compute; lia)
           eq_refl eq_refl eq_refl).
Defined.

End RegisterFacts.

(** * Facts about strings used below *)

Module StringFacts.
#[local] Arguments String.append : simpl nomatch.

Lemma prefix_append (p r : string) : String.prefix p (p ++ r) = true.
Proof.
  induction p as [|c p IH]; simpl; [now destruct r|].
  destruct (ascii_dec c c); [exact IH | congruence].
Qed.

Lemma prefix_split (p : string) : forall s,
  String.prefix p s = true -> exists r, s = p ++ r.
Proof.
  induction p as [|c p IH]; intros s H.
  - exists s. reflexivity.
  - destruct s as [|d s]; simpl in H; [discriminate|].
    destruct (ascii_dec c d) as [->|]; [|discriminate].
    destruct (IH s H) as [r ->]. exists r. reflexivity.
Qed.

Lemma substring_all (s : string) : String.substring 0 (String.length s) s = s.
Proof. induction s as [|c s IH]; simpl; [reflexivity | now rewrite IH]. Qed.

Lemma length_append (a b : string) :
  String.length (a ++ b) = (String.length a + String.length b)%nat.
Proof. induction a as [|c a IH]; simpl; [reflexivity | now rewrite IH]. Qed.

(** Dropping the length of [p] from [p ++ r] leaves [r]. *)
Lemma substring_drop (p r : string) :
  String.substring (String.length p)
                   (String.length (p ++ r) - String.length p) (p ++ r) = r.
Proof.
  rewrite length_append.
  replace (String.length p + String.length r - String.length p)%nat
    with (String.length r) by lia.
  induction p as [|c p IH]; simpl; [apply substring_all | exact IH].
Qed.

End StringFacts.

(** * More properties of the auth library *)

Module AuthMore.
Import Jsonwebtoken Auth AuthHeader Fixture.
#[local] Arguments String.append : simpl nomatch.

(** X2.  [extractTokenFromHeader] returns a token exactly for a header that
    is ['Bearer '] followed by that token: nothing is trimmed, nothing else
    is accepted (no header, another scheme, another letter case). *)
Theorem extractTokenFromHeader_spec (authHeader : option string) (token : string) :
  extractTokenFromHeader authHeader = Some token <->
  authHeader = Some ("Bearer " ++ token).
Proof.
  unfold extractTokenFromHeader. split.
  - destruct authHeader as [header|]; [|discriminate].
    destruct (negb (truthy (Some header)) || negb (startsWith header "Bearer "))
      eqn:E; [discriminate|].
    apply orb_false_elim in E as [_ E]. apply negb_false_iff in E.
    apply StringFacts.prefix_split in E as [r ->].
    intros [= <-]. do 2 f_equal. symmetry.
    exact (StringFacts.substring_drop "Bearer " r).
  - intros ->. unfold startsWith.
    rewrite StringFacts.prefix_append.
    change (negb (truthy (Some ("Bearer " ++ token))) || negb true) with false.
    cbv iota. f_equal.
    exact (StringFacts.substring_drop "Bearer " token).
Qed.

(** X3.  A token issued by [generateToken] is refused by [verifyToken] from
    the 604800th second after issuance on. *)
Theorem generated_token_expires {J : Jws} {L : JwsLaws J}
  (env : gmap string string) (auth : Loaded) (c : Claims) (now t : Z) :
  load env = Return auth ->
  now + 7 * 24 * 60 * 60 <= t ->
  exists token,
    generateToken auth now c = Return token /\
    verifyToken auth t token = Return None.
Proof.
  intros Hload Ht.
  destruct (AuthFacts.load_inv env auth Hload) as (secret & _ & Hne & Hs).
  eexists. split.
  { eapply AuthFacts.generateToken_configured; eassumption. }
  unfold verifyToken, verify.
  rewrite decode_sign, Hs, AuthFacts.truthy_Some, verify_sign by assumption.
  simpl.
  destruct (now + 604800 <=? t) eqn:Hle; [reflexivity|].
  apply Z.leb_gt in Hle. lia.
Qed.

Lemma generated_token_expires_witness :
  exists token,
    generateToken configured 1000 alice = Return token /\
    verifyToken configured 605800 token = Return None.
Proof.
  apply (@generated_token_expires framed_jws AuthFacts.framed_jws_laws
           production configured alice 1000 605800); [reflexivity | lia].
Defined.

End AuthMore.

(** * What the gate guarantees for any route tables *)

Module GateSafety.
Import Middleware Fixture Shapes.

(** [headers.set] either stores the normalized value, which is then a
    header value, or throws. *)
Lemma Headers_set_inv (name value : string) (headers stored : gmap string string) :
  Headers.set name value headers = Return stored ->
  stored = <[name := Headers.normalize value]> headers /\
  Headers.is_value (Headers.normalize value) = true.
Proof.
  unfold Headers.set. destruct (Headers.is_value _) eqn:E; [|discriminate].
  intros [= <-]. auto.
Qed.

Section AnyTables.
Variables publicRoutes' protectedRoutes' protectedApiRoutes' : list string.
Variable verifyToken : string -> Result (option JWTPayload).
Variable request : NextRequest.

Let pathname := req_pathname request.
Let gate := middlewareWith publicRoutes' protectedRoutes' protectedApiRoutes'
                           verifyToken request.

(** X4.  Whatever the route tables: the gate refuses (401 or redirect to
    the login page) only a request whose path is protected, not public and
    not a static file, and whose [auth-token] cookie is missing or empty or
    holds a token the verifier found invalid. *)
Theorem rejection_implies_unauthenticated (r : NextResponse) :
  snd gate = Return r ->
  is_rejection r = true ->
  isStaticOrInternal pathname = false /\
  isPublicRoute publicRoutes' pathname = false /\
  isProtectedRoute protectedRoutes' pathname
    || isProtectedApiRoute protectedApiRoutes' pathname = true /\
  (truthy (req_cookies request !! "auth-token") = false \/
   exists token, req_cookies request !! "auth-token" = Some token /\
                 verifyToken token = Return None).
Proof.
  unfold gate, middlewareWith. fold pathname.
  destruct (isStaticOrInternal pathname); [intros [= <-]; discriminate|].
  destruct (isPublicRoute publicRoutes' pathname); simpl;
    [intros [= <-]; discriminate|].
  destruct (String.eqb pathname "/api/auth/me"); simpl;
    [intros [= <-]; discriminate|].
  unfold cookies_get, call_verifyToken.
  destruct (req_cookies request !! "auth-token") as [tok|] eqn:Hc; simpl.
  - destruct (String.eqb tok "") eqn:Hempty; simpl.
    + destruct (isProtectedRoute _ pathname || isProtectedApiRoute _ pathname)
        eqn:Hprot; simpl.
      * intros _ _. auto.
      * intros [= <-]; discriminate.
    + destruct (verifyToken tok) as [[p|]|e] eqn:Hv; simpl.
      * destruct (isProtectedApiRoute _ pathname); simpl.
        -- unfold quiet.
           destruct (Headers.set "x-user-id" _ _) as [h1|e1]; simpl;
             [|discriminate].
           destruct (Headers.set "x-user-email" _ _) as [h2|e2]; simpl;
             [|discriminate].
           destruct (Headers.set "x-user-name" _ _) as [h3|e3]; simpl;
             [|discriminate].
           intros [= <-]; discriminate.
        -- destruct (startsWith pathname "/auth/login"
                     || startsWith pathname "/sign-up");
             simpl; intros [= <-]; discriminate.
      * destruct (isProtectedRoute _ pathname || isProtectedApiRoute _ pathname)
          eqn:Hprot; simpl.
        -- intros _ _. repeat split; eauto.
        -- intros [= <-]; discriminate.
      * discriminate.
  - destruct (isProtectedRoute _ pathname || isProtectedApiRoute _ pathname)
      eqn:Hprot; simpl.
    + intros _ _. auto.
    + intros [= <-]; discriminate.
Qed.

(** When the gate forwards a request with a header set of its own, the
    path is a protected API path, the cookie held an accepted token, and
    the three identity headers hold the normalized fields of its payload;
    every other header is the request's own. *)
Lemma forwarded_headers_inv
  (r : NextResponse) (forwarded : gmap string string) :
  snd gate = Return r ->
  kind r = Next (Some forwarded) ->
  exists token p,
    isProtectedApiRoute protectedApiRoutes' pathname = true /\
    req_cookies request !! "auth-token" = Some token /\ token <> "" /\
    verifyToken token = Return (Some p) /\
    forwarded !! "x-user-id" = Some (Headers.normalize (userId p)) /\
    forwarded !! "x-user-email" = Some (Headers.normalize (email p)) /\
    forwarded !! "x-user-name" = Some (Headers.normalize (name p)) /\
    Headers.is_value (Headers.normalize (userId p)) = true /\
    Headers.is_value (Headers.normalize (email p)) = true /\
    Headers.is_value (Headers.normalize (name p)) = true /\
    (forall header : string,
       header <> "x-user-id" -> header <> "x-user-email" ->
       header <> "x-user-name" ->
       forwarded !! header = req_headers request !! header).
Proof.
  unfold gate, middlewareWith. fold pathname.
  destruct (isStaticOrInternal pathname); [intros [= <-]; discriminate|].
  destruct (_ || _); [intros [= <-]; discriminate|].
  unfold cookies_get, call_verifyToken.
  destruct (req_cookies request !! "auth-token") as [tok|] eqn:Hc; simpl.
  - destruct (String.eqb tok "") eqn:Hempty; simpl.
    + destruct (_ || _); simpl;
        [destruct (isProtectedApiRoute _ pathname)|];
        intros [= <-]; discriminate.
    + destruct (verifyToken tok) as [[p|]|e] eqn:Hv; simpl.
      * destruct (isProtectedApiRoute _ pathname) eqn:Hapi; simpl.
        -- unfold quiet.
           destruct (Headers.set "x-user-id" _ _) as [h1|e1] eqn:E1; simpl;
             [|discriminate].
           destruct (Headers.set "x-user-email" _ _) as [h2|e2] eqn:E2; simpl;
             [|discriminate].
           destruct (Headers.set "x-user-name" _ _) as [h3|e3] eqn:E3; simpl;
             [|discriminate].
           intros [= <-] [= <-].
           apply Headers_set_inv in E1 as [-> V1].
           apply Headers_set_inv in E2 as [-> V2].
           apply Headers_set_inv in E3 as [-> V3].
           apply String.eqb_neq in Hempty.
           exists tok, p. repeat split; try assumption.
           ++ rewrite lookup_insert_ne by discriminate.
              rewrite lookup_insert_ne by discriminate.
              apply lookup_insert_eq.
           ++ rewrite lookup_insert_ne by discriminate. apply lookup_insert_eq.
           ++ apply lookup_insert_eq.
           ++ intros header H1 H2 H3.
              rewrite !lookup_insert_ne by congruence. reflexivity.
        -- destruct (_ || _); intros [= <-]; discriminate.
      * destruct (_ || _); simpl;
          [destruct (isProtectedApiRoute _ pathname)|];
          intros [= <-]; discriminate.
      * discriminate.
  - destruct (_ || _); simpl;
      [destruct (isProtectedApiRoute _ pathname)|];
      intros [= <-]; discriminate.
Qed.

(** X6.  Whatever the route tables, the log of the gate is fixed by the
    path and the cookie: for a static or public path it is empty (no cookie
    read, no verifier call); for every other path the gate reads the
    [auth-token] cookie, once, and no other; and it calls [verifyToken]
    exactly when that cookie holds a non-empty value, once, on that
    value. *)
Theorem gate_verifies_only_the_cookie :
  fst gate =
  if isStaticOrInternal pathname
     || (isPublicRoute publicRoutes' pathname
         || String.eqb pathname "/api/auth/me")
  then []
  else
    match req_cookies request !! "auth-token" with
    | Some token =>
        if String.eqb token "" then [CookieRead "auth-token"]
        else [CookieRead "auth-token"; TokenVerified token]
    | None => [CookieRead "auth-token"]
    end.
Proof.
  unfold gate, middlewareWith. fold pathname.
  destruct (isStaticOrInternal pathname); [reflexivity|].
  destruct (_ || _); [reflexivity|]. cbn [orb].
  unfold cookies_get, call_verifyToken.
  destruct (req_cookies request !! "auth-token") as [tok|] eqn:Hc; simpl.
  - destruct (String.eqb tok ""); simpl.
    + destruct (_ || _); simpl; [destruct (isProtectedApiRoute _ _)|]; reflexivity.
    + destruct (verifyToken tok) as [[p|]|e]; simpl; [| |reflexivity].
      * destruct (isProtectedApiRoute _ _); simpl.
        -- unfold quiet.
           destruct (Headers.set "x-user-id" _ _) as [h1|e1]; simpl;
             [|reflexivity].
           destruct (Headers.set "x-user-email" _ _) as [h2|e2]; simpl;
             [|reflexivity].
           destruct (Headers.set "x-user-name" _ _) as [h3|e3]; reflexivity.
        -- destruct (_ || _); reflexivity.
      * destruct (_ || _); simpl; [destruct (isProtectedApiRoute _ _)|];
          reflexivity.
  - destruct (_ || _); simpl; [destruct (isProtectedApiRoute _ _)|]; reflexivity.
Qed.

End AnyTables.

Lemma rejection_implies_unauthenticated_witness :
  isStaticOrInternal "/profile" = false /\
  isPublicRoute publicRoutes_listed "/profile" = false /\
  isProtectedRoute protectedRoutes "/profile"
    || isProtectedApiRoute protectedApiRoutes "/profile" = true /\
  (truthy (req_cookies (Fixture.request "/profile" ∅) !! "auth-token") = false \/
   exists token,
     req_cookies (Fixture.request "/profile" ∅) !! "auth-token" = Some token /\
     rejecting token = Return None).
Proof.
  apply (rejection_implies_unauthenticated publicRoutes_listed protectedRoutes
           protectedApiRoutes rejecting (Fixture.request "/profile" ∅)
           (NextResponse.redirect
              (mkURL "https://fitness.example" "/auth/login"
                     [("callbackUrl", "/profile")])));
    reflexivity.
Defined.

(** X5.  The identity headers.  With the tables of the file the gate never
    forwards a request with a header set of its own: every protected API
    path is public by the ["/"] entry.  Whatever the route tables, when the
    gate does forward a request with a header set of its own, the path is a
    protected API path, the [auth-token] cookie held a non-empty token the
    verifier accepted, and the forwarded headers are the request's own
    except [x-user-id], [x-user-email] and [x-user-name], which hold the
    normalized [userId], [email] and [name] of that token's payload, each a
    well-formed header value.  What the client sent under these three names
    is overwritten. *)
Theorem identity_headers_come_from_the_token :
  (forall (verifyToken : string -> Result (option JWTPayload))
          (request : NextRequest) (r : NextResponse)
          (forwarded : gmap string string),
     snd (middleware verifyToken request) = Return r ->
     kind r <> Next (Some forwarded)) /\
  (forall (publicRoutes' protectedRoutes' protectedApiRoutes' : list string)
          (verifyToken : string -> Result (option JWTPayload))
          (request : NextRequest) (r : NextResponse)
          (forwarded : gmap string string),
     snd (middlewareWith publicRoutes' protectedRoutes' protectedApiRoutes'
                         verifyToken request) = Return r ->
     kind r = Next (Some forwarded) ->
     exists token p,
       isProtectedApiRoute protectedApiRoutes' (req_pathname request) = true /\
       req_cookies request !! "auth-token" = Some token /\ token <> "" /\
       verifyToken token = Return (Some p) /\
       forwarded !! "x-user-id" = Some (Headers.normalize (userId p)) /\
       forwarded !! "x-user-email" = Some (Headers.normalize (email p)) /\
       forwarded !! "x-user-name" = Some (Headers.normalize (name p)) /\
       Headers.is_value (Headers.normalize (userId p)) = true /\
       Headers.is_value (Headers.normalize (email p)) = true /\
       Headers.is_value (Headers.normalize (name p)) = true /\
       (forall header : string,
          header <> "x-user-id" -> header <> "x-user-email" ->
          header <> "x-user-name" ->
          forwarded !! header = req_headers request !! header)).
Proof.
  split.
  - intros verifyToken request r forwarded Hr Hk.
    destruct (forwarded_headers_inv publicRoutes protectedRoutes
                protectedApiRoutes verifyToken request r forwarded Hr Hk)
      as (token & p & Hapi & _).
    apply GateFacts.protected_api_starts_with_slash in Hapi.
    rewrite (GateFacts.middleware_forwards_every_path _ _ Hapi) in Hr.
    injection Hr as <-. discriminate Hk.
  - apply forwarded_headers_inv.
Qed.

Lemma identity_headers_come_from_the_token_witness :
  snd (middlewareWith publicRoutes_listed protectedRoutes protectedApiRoutes
                      accepting_padded (spoofing_request "tok"))
  = Return (NextResponse.next_with forwarded_for_alice) /\
  exists token p,
    isProtectedApiRoute protectedApiRoutes
      (req_pathname (spoofing_request "tok")) = true /\
    req_cookies (spoofing_request "tok") !! "auth-token" = Some token /\
    token <> "" /\
    accepting_padded token = Return (Some p) /\
    forwarded_for_alice !! "x-user-id" = Some (Headers.normalize (userId p)) /\
    forwarded_for_alice !! "x-user-email" = Some (Headers.normalize (email p)) /\
    forwarded_for_alice !! "x-user-name" = Some (Headers.normalize (name p)) /\
    Headers.is_value (Headers.normalize (userId p)) = true /\
    Headers.is_value (Headers.normalize (email p)) = true /\
    Headers.is_value (Headers.normalize (name p)) = true /\
    (forall header : string,
       header <> "x-user-id" -> header <> "x-user-email" ->
       header <> "x-user-name" ->
       forwarded_for_alice !! header
       = req_headers (spoofing_request "tok") !! header).
Proof.
  split; [reflexivity|].
  apply (proj2 identity_headers_come_from_the_token publicRoutes_listed
           protectedRoutes protectedApiRoutes accepting_padded
           (spoofing_request "tok")
           (NextResponse.next_with forwarded_for_alice) forwarded_for_alice);
    reflexivity.
Defined.

End GateSafety.

(** * More facts about strings: reversal and trimming *)

Module TrimFacts.
Import Register RegexClasses.
#[local] Arguments String.append : simpl nomatch.

Lemma rev_app_append (a : string) : forall b acc,
  String.rev_app (a ++ b) acc = String.rev_app b (String.rev_app a acc).
Proof.
  induction a as [|x a IH]; intros b acc; simpl; [reflexivity | apply IH].
Qed.

Lemma rev_app_rev_app (a : string) : forall b c,
  String.rev_app (String.rev_app a b) c = String.rev_app b (a ++ c).
Proof.
  induction a as [|x a IH]; intros b c; simpl; [reflexivity|].
  rewrite IH. reflexivity.
Qed.

Lemma rev_involutive (s : string) : String.rev (String.rev s) = s.
Proof.
  unfold String.rev. rewrite rev_app_rev_app. simpl.
  apply AuthFacts.append_empty_r.
Qed.

Lemma rev_snoc (a : string) (c : ascii) :
  String.rev (a ++ String c "") = String c (String.rev a).
Proof. unfold String.rev. rewrite rev_app_append. reflexivity. Qed.

Lemma rev_app_spec (a : string) : forall acc,
  String.rev_app a acc = String.rev a ++ acc.
Proof.
  induction a as [|x a IH]; intros acc; [reflexivity|].
  unfold String.rev. simpl. rewrite (IH (String x acc)), (IH (String x "")).
  now rewrite AuthFacts.append_assoc.
Qed.

Lemma rev_cons (c : ascii) (a : string) :
  String.rev (String c a) = String.rev a ++ String c "".
Proof. unfold String.rev at 1. simpl. apply rev_app_spec. Qed.

(** [trimStart] removes a run of spaces from the front and nothing else. *)
Lemma trimStart_split (s : string) :
  exists spaces, s = spaces ++ trimStart s /\ all_chars is_space spaces = true.
Proof.
  induction s as [|c s (spaces & E & Hsp)]; simpl.
  - exists "". auto.
  - destruct (is_space c) eqn:Hc.
    + exists (String c spaces). simpl. rewrite Hc, Hsp. split; [|reflexivity].
      now rewrite <- E.
    + exists "". auto.
Qed.

Lemma trimStart_fixed (c : ascii) (s : string) :
  is_space c = false -> trimStart (String c s) = String c s.
Proof. intros H. simpl. now rewrite H. Qed.

(** What [trimStart] returns does not begin with a space. *)
Lemma trimStart_head (s : string) :
  match trimStart s with
  | String c _ => is_space c = false
  | EmptyString => True
  end.
Proof.
  induction s as [|c s IH]; simpl; [exact I|].
  destruct (is_space c) eqn:Hc; [exact IH | exact Hc].
Qed.

Lemma trimStart_idempotent (s : string) : trimStart (trimStart s) = trimStart s.
Proof.
  pose proof (trimStart_head s) as H.
  destruct (trimStart s) as [|c r]; [reflexivity|].
  now apply trimStart_fixed.
Qed.

(** A string that begins and ends with characters that are no spaces is
    its own trim. *)
Lemma trim_fixed (c d : ascii) (a : string) :
  is_space c = false -> is_space d = false ->
  trim (String c (a ++ String d "")) = String c (a ++ String d "").
Proof.
  intros Hc Hd. unfold trim. rewrite (trimStart_fixed c _ Hc).
  change (String c (a ++ String d "")) with (String c a ++ String d "").
  rewrite rev_snoc, (trimStart_fixed d _ Hd).
  rewrite <- rev_snoc. apply rev_involutive.
Qed.

Lemma trim_single (c : ascii) :
  is_space c = false -> trim (String c "") = String c "".
Proof. intros Hc. unfold trim. simpl. rewrite Hc. simpl. now rewrite Hc. Qed.

End TrimFacts.

(** * The e-mail check of the registration endpoint and letter case *)

Module EmailFacts.
Import Regex RegexClasses RegexFacts Register.
#[local] Arguments String.append : simpl nomatch.

Lemma matches_void (s : string) : matches Void s = false.
Proof. induction s as [|c s IH]; simpl; [reflexivity | exact IH]. Qed.

Lemma respects_seq (f : ascii -> ascii) (a b : Regex.t) :
  respects f a -> respects f b -> respects f (seq a b).
Proof. destruct a; destruct b; simpl; tauto. Qed.

Lemma respects_alt (f : ascii -> ascii) (a b : Regex.t) :
  respects f a -> respects f b -> respects f (alt a b).
Proof. destruct a; destruct b; simpl; tauto. Qed.

Lemma respects_deriv (f : ascii -> ascii) (c : ascii) (r : Regex.t) :
  respects f r -> respects f (deriv c r).
Proof.
  induction r as [| |m|a IHa b IHb|a IHa b IHb|a IHa]; simpl; try tauto.
  - intros _. destruct (m c); exact I.
  - intros [Ha Hb]. apply respects_alt.
    + apply respects_seq; auto.
    + destruct (nullable a); simpl; auto.
  - intros [Ha Hb]. apply respects_alt; auto.
  - intros Ha. apply respects_seq; simpl; auto.
Qed.

Lemma deriv_respects (f : ascii -> ascii) (c : ascii) (r : Regex.t) :
  respects f r -> deriv (f c) r = deriv c r.
Proof.
  induction r as [| |m|a IHa b IHb|a IHa b IHb|a IHa]; simpl; try reflexivity.
  - intros H. now rewrite H.
  - intros [Ha Hb]. now rewrite IHa, IHb.
  - intros [Ha Hb]. now rewrite IHa, IHb.
  - intros Ha. now rewrite IHa.
Qed.

(** Lower-casing a string does not change whether it matches an expression
    whose classes do not look at letter case. *)
Lemma matches_toLowerCase (s : string) : forall r,
  respects lower r -> matches r (toLowerCase s) = matches r s.
Proof.
  induction s as [|c s IH]; intros r Hr; simpl; [reflexivity|].
  rewrite deriv_respects by assumption.
  apply IH. now apply respects_deriv.
Qed.

Lemma is_word_lower (c : ascii) : is_word (lower c) = is_word c.
Proof. destruct c as [[] [] [] [] [] [] [] []]; reflexivity. Qed.

Lemma eqb_lower (d c : ascii) :
  is_word d = false -> Ascii.eqb d (lower c) = Ascii.eqb d c.
Proof.
  intros Hd. destruct (Ascii.eqb d c) eqn:E.
  - apply Ascii.eqb_eq in E as <-. apply Ascii.eqb_eq.
    revert Hd. destruct d as [[] [] [] [] [] [] [] []]; vm_compute; congruence.
  - apply Ascii.eqb_neq in E. apply Ascii.eqb_neq. intros ->. apply E.
    rewrite <- is_word_lower in Hd.
    revert Hd. destruct c as [[] [] [] [] [] [] [] []]; vm_compute; congruence.
Qed.

Lemma emailRegex_respects_lower : respects lower emailRegex.
Proof.
  unfold emailRegex, plus, opt, char, word. simpl.
  assert (W := is_word_lower).
  assert (A : forall c, Ascii.eqb "@" (lower c) = Ascii.eqb "@" c)
    by (intros; now apply eqb_lower).
  assert (D : forall c, Ascii.eqb "." (lower c) = Ascii.eqb "." c)
    by (intros; now apply eqb_lower).
  assert (X : forall c, Ascii.eqb (lower c) "." || Ascii.eqb (lower c) "-"
                        = Ascii.eqb c "." || Ascii.eqb c "-").
  { intros c. rewrite !(Ascii.eqb_sym _ "."), !(Ascii.eqb_sym _ "-").
    now rewrite !eqb_lower. }
  repeat split; auto.
Qed.

Lemma is_word_not_space (c : ascii) : is_word c = true -> is_space c = false.
Proof. destruct c as [[] [] [] [] [] [] [] []]; vm_compute; congruence. Qed.

(** An accepted e-mail begins with a word character. *)
Lemma emailRegex_first (c : ascii) (s : string) :
  matches emailRegex (String c s) = true -> is_word c = true.
Proof.
  destruct (is_word c) eqn:E; [reflexivity|].
  unfold emailRegex, plus, opt, char, word. simpl. rewrite E. simpl.
  now rewrite matches_void.
Qed.

Lemma lang_class_inv (m : ascii -> bool) (w : string) :
  lang (Class m) w -> exists c, w = String c "" /\ m c = true.
Proof. intros H. inversion H; subst. eauto. Qed.

(** A string of [(\.\w{2,3})] ends with a word character. *)
Lemma tld_ends_with_word (w : string) :
  lang (Seq (char ".") (Seq word (Seq word (opt word)))) w ->
  exists a c, w = a ++ String c "" /\ is_word c = true.
Proof.
  intros H.
  apply lang_seq_inv in H as (d & r1 & -> & _ & H).
  apply lang_seq_inv in H as (w1 & r2 & -> & _ & H).
  apply lang_seq_inv in H as (w2 & o & -> & H2 & Ho).
  apply lang_class_inv in H2 as (c2 & -> & Hc2).
  apply lang_alt_inv in Ho as [Ho|Ho].
  - apply lang_eps_inv in Ho as ->.
    exists (d ++ w1), c2. split; [|exact Hc2].
    now rewrite AuthFacts.append_assoc.
  - apply lang_class_inv in Ho as (c3 & -> & Hc3).
    exists (d ++ w1 ++ String c2 ""), c3. split; [|exact Hc3].
    now rewrite !AuthFacts.append_assoc.
Qed.

Lemma star_tld_ends_with_word (r : Regex.t) (w : string) :
  lang r w ->
  r = Star (Seq (char ".") (Seq word (Seq word (opt word)))) ->
  w = "" \/ exists a c, w = a ++ String c "" /\ is_word c = true.
Proof.
  induction 1 as [| | | | | |r' a b Ha _ Hb IHb]; try discriminate.
  - auto.
  - intros E. injection E as ->. right.
    destruct (IHb eq_refl) as [-> | (a' & c & -> & Hc)].
    + rewrite AuthFacts.append_empty_r. now apply tld_ends_with_word.
    + exists (a ++ a'), c. split; [|exact Hc].
      now rewrite AuthFacts.append_assoc.
Qed.

(** An accepted e-mail ends with a word character. *)
Lemma emailRegex_last (e : string) :
  matches emailRegex e = true ->
  exists a c, e = a ++ String c "" /\ is_word c = true.
Proof.
  intros H. apply matches_spec in H.
  unfold emailRegex in H. cbv zeta in H.
  apply lang_seq_inv in H as (x & r1 & -> & _ & H).
  apply lang_seq_inv in H as (y & r2 & -> & _ & H).
  apply lang_seq_inv in H as (z & t & -> & _ & H).
  unfold plus in H.
  apply lang_seq_inv in H as (t1 & t2 & -> & H1 & H2).
  apply (fun h => star_tld_ends_with_word _ _ h eq_refl) in H2.
  destruct H2 as [-> | (a & c & -> & Hc)].
  - apply tld_ends_with_word in H1 as (a & c & -> & Hc).
    exists (x ++ y ++ z ++ a), c. split; [|exact Hc].
    now rewrite !AuthFacts.append_assoc.
  - exists (x ++ y ++ z ++ t1 ++ a), c. split; [|exact Hc].
    now rewrite !AuthFacts.append_assoc.
Qed.

(** An accepted e-mail has no space at either end. *)
Lemma valid_email_is_trimmed (e : string) :
  matches emailRegex e = true -> trim e = e.
Proof.
  intros H.
  destruct (emailRegex_last e H) as (a & d & -> & Hd).
  apply is_word_not_space in Hd.
  destruct a as [|c a].
  - now apply TrimFacts.trim_single.
  - simpl in H |- *. apply emailRegex_first, is_word_not_space in H.
    now apply TrimFacts.trim_fixed.
Qed.

(** X7.  For an e-mail the handler accepts, the address written to the new
    user ([email.toLowerCase().trim()]) is the very address the handler
    looked up before ([email.toLowerCase()]), it is again accepted by the
    same pattern (the one the user schema validates with), and lower-casing
    it again changes nothing. *)
Theorem stored_email_is_lookup_key (email : string) :
  matches emailRegex email = true ->
  trim (toLowerCase email) = toLowerCase email /\
  matches emailRegex (toLowerCase email) = true /\
  toLowerCase (toLowerCase email) = toLowerCase email.
Proof.
  intros H.
  assert (Hl : matches emailRegex (toLowerCase email) = true).
  { rewrite matches_toLowerCase; [exact H | exact emailRegex_respects_lower]. }
  split; [now apply valid_email_is_trimmed|]. split; [exact Hl|].
  clear. induction email as [|c s IH]; simpl; [reflexivity|].
  rewrite IH. f_equal.
  destruct c as [[] [] [] [] [] [] [] []]; reflexivity.
Qed.

Lemma stored_email_is_lookup_key_witness :
  trim (toLowerCase "First.Last@Mail.Example.ORG")
  = toLowerCase "First.Last@Mail.Example.ORG" /\
  matches emailRegex (toLowerCase "First.Last@Mail.Example.ORG") = true /\
  toLowerCase (toLowerCase "First.Last@Mail.Example.ORG")
  = toLowerCase "First.Last@Mail.Example.ORG".
Proof.
  apply (stored_email_is_lookup_key "First.Last@Mail.Example.ORG").
  reflexivity.
Defined.

End EmailFacts.

(** * More properties of the registration endpoint *)

Module RegisterMore.
Import Jsonwebtoken Auth Regex Register Fixture.

Ltac step := cbn [mbind result_bind mret result_ret try_catch].

Lemma POST_catch_shape (error : Error) :
  exists msg status,
    POST_catch error = Return (error_response msg status) /\
    (status = 400 \/ status = 409 \/ status = 500).
Proof.
  unfold POST_catch.
  destruct (includes _ _); [eexists; eexists; split; [reflexivity | auto]|].
  destruct (String.eqb _ _); eexists; eexists; split; try reflexivity; auto.
Qed.

(** X8.  The handler always answers, and in one of two ways only: the 201
    response carrying exactly one cookie, [auth-token]; or an error body
    with status 400, 409 or 500 and no cookie at all. *)
Theorem POST_response_shapes {J : Jws} {B : Bcrypt} {S : UserStore}
  (auth : Loaded) (env : gmap string string) (now : Z) (entropy : string)
  (request_json : Result Body) :
  exists r,
    POST auth env now entropy request_json = Return r /\
    ((exists body token opts,
        r = mkResponse (JsonResponse body 201)
                       [CookieSet "auth-token" token opts]) \/
     (exists msg status,
        r = error_response msg status /\
        (status = 400 \/ status = 409 \/ status = 500))).
Proof.
  assert (Herr : forall e : Error,
    exists r, try_catch (Throw e) POST_catch = Return r /\
      ((exists body token opts,
          r = mkResponse (JsonResponse body 201)
                         [CookieSet "auth-token" token opts]) \/
       (exists msg status,
          r = error_response msg status /\
          (status = 400 \/ status = 409 \/ status = 500)))).
  { intros e. destruct (POST_catch_shape e) as (msg & st & E & Hst).
    eexists. split; [exact E|]. right. eauto. }
  assert (Hrej : forall msg status,
    status = 400 \/ status = 409 \/ status = 500 ->
    exists r, try_catch (Return (error_response msg status)) POST_catch = Return r /\
      ((exists body token opts,
          r = mkResponse (JsonResponse body 201)
                         [CookieSet "auth-token" token opts]) \/
       (exists msg' status',
          r = error_response msg' status' /\
          (status' = 400 \/ status' = 409 \/ status' = 500)))).
  { intros msg st Hst. eexists. split; [reflexivity|]. right. eauto. }
  unfold POST, POST_body.
  destruct connectToDatabase as [[]|e]; step; [|apply Herr].
  destruct request_json as [body|e]; step; [|apply Herr].
  destruct (_ || _); [apply Hrej; auto|].
  destruct (negb (matches _ _)); [apply Hrej; auto|].
  destruct (_ <? _)%nat; [apply Hrej; auto|].
  destruct (_ && _); [apply Hrej; auto|].
  destruct (_ <? _)%nat; [apply Hrej; auto|].
  destruct (_ <? _)%nat; [apply Hrej; auto|].
  destruct (User_findOne _) as [[existing|]|e]; step;
    [apply Hrej; auto | | apply Herr].
  destruct (hashPassword _ _) as [hashed|e]; step; [|apply Herr].
  destruct (User_save _) as [saved|e]; step; [|apply Herr].
  destruct (generateToken _ _ _) as [token|e]; step; [|apply Herr].
  eexists. split; [reflexivity|]. left. eexists. eexists. eexists. reflexivity.
Qed.

(** X9.  The handler answers 201 only after every check has passed: the
    body parsed, the e-mail matched the pattern, the password has at least
    6 characters and equals [confirmPassword] when one is given, the
    trimmed name has at least 2 characters and the name at most 50, no user
    was found under the lower-cased e-mail, and the user saved holds the
    bcrypt output for the password, never the password itself, under the
    lower-cased, trimmed e-mail. *)
Theorem created_only_when_valid {J : Jws} {B : Bcrypt} {S : UserStore}
  (auth : Loaded) (env : gmap string string) (now : Z) (entropy : string)
  (request_json : Result Body) (r : NextResponse) (body_json : Json) :
  POST auth env now entropy request_json = Return r ->
  kind r = JsonResponse body_json 201 ->
  exists body email password name hashed savedUser token,
    request_json = Return body /\
    b_email body = Some email /\ b_password body = Some password /\
    b_name body = Some name /\
    matches emailRegex email = true /\
    (6 <= String.length password)%nat /\
    (truthy (b_confirmPassword body) = true ->
     b_confirmPassword body = Some password) /\
    (2 <= String.length (trim name))%nat /\
    (String.length name <= 50)%nat /\
    User_findOne (toLowerCase email) = Return None /\
    bcrypt_hash password 12 entropy = Return hashed /\
    User_save (mkNewUser (trim (toLowerCase email)) hashed (trim name)
                         default_fitnessProfile [] false)
    = Return savedUser /\
    generateToken auth now
      (mkClaims (u_id savedUser) (u_email savedUser) (u_name savedUser))
    = Return token /\
    set_cookies r = [CookieSet "auth-token" token
                       {| httpOnly := true;
                          secure := bool_decide (env !! "NODE_ENV" = Some "production");
                          sameSite := "strict";
                          maxAge := 604800;
                          path := "/" |}].
Proof.
  assert (Herr : forall e : Error,
    try_catch (Throw e) POST_catch = Return r ->
    kind r = JsonResponse body_json 201 -> False).
  { intros e H K. destruct (POST_catch_shape e) as (msg & st & E & Hst).
    simpl in H. rewrite E in H. injection H as <-. simpl in K.
    injection K as _ K. lia. }
  assert (Hrej : forall msg status,
    status <> 201 ->
    try_catch (Return (error_response msg status)) POST_catch = Return r ->
    kind r = JsonResponse body_json 201 -> False).
  { intros msg st Hst H K. simpl in H. injection H as <-. simpl in K.
    injection K as _ K. congruence. }
  unfold POST, POST_body.
  destruct connectToDatabase as [[]|e]; step; [|intros H K; destruct (Herr e H K)].
  destruct request_json as [body|e]; step; [|intros H K; destruct (Herr e H K)].
  destruct (b_email body) as [email|] eqn:He;
    [|intros H K; exfalso; revert H K; apply Hrej; lia].
  destruct (b_password body) as [password|] eqn:Hp;
    [|rewrite orb_true_r; intros H K; exfalso; revert H K; apply Hrej; lia].
  destruct (b_name body) as [name|] eqn:Hn;
    [|rewrite orb_true_r; intros H K; exfalso; revert H K; apply Hrej; lia].
  destruct (_ || _);
    [intros H K; exfalso; revert H K; apply Hrej; lia|].
  cbn [str].
  destruct (matches emailRegex email) eqn:Hmail; cbn [negb];
    [|intros H K; exfalso; revert H K; apply Hrej; lia].
  destruct (String.length password <? 6)%nat eqn:Hlen;
    [intros H K; exfalso; revert H K; apply Hrej; lia|].
  destruct (truthy (b_confirmPassword body) && _) eqn:Hconf;
    [intros H K; exfalso; revert H K; apply Hrej; lia|].
  destruct (String.length (trim name) <? 2)%nat eqn:Htrim;
    [intros H K; exfalso; revert H K; apply Hrej; lia|].
  destruct (50 <? String.length name)%nat eqn:Hmax;
    [intros H K; exfalso; revert H K; apply Hrej; lia|].
  destruct (User_findOne _) as [[existing|]|e] eqn:Hfind; step;
    [intros H K; exfalso; revert H K; apply Hrej; lia | |
     intros H K; destruct (Herr e H K)].
  unfold hashPassword.
  destruct (bcrypt_hash password 12 entropy) as [hashed|e] eqn:Hhash; step;
    [|intros H K; destruct (Herr e H K)].
  destruct (User_save _) as [saved|e] eqn:Hsave; step;
    [|intros H K; destruct (Herr e H K)].
  destruct (generateToken _ _ _) as [token|e] eqn:Htoken; step;
    [|intros H K; destruct (Herr e H K)].
  intros [= <-] _.
  exists body, email, password, name, hashed, saved, token.
  apply Nat.ltb_ge in Hlen, Htrim, Hmax.
  repeat split; try assumption; try reflexivity.
  intros T. rewrite T in Hconf. simpl in Hconf.
  apply negb_false_iff, String.eqb_eq in Hconf.
  destruct (b_confirmPassword body) as [c|]; [|discriminate].
  simpl in Hconf. now subst.
Qed.

Lemma created_only_when_valid_witness :
  exists body email password name hashed savedUser token,
    Return (mkBody (Some "a@b.com") (Some "Abcdef12") (Some "Alice") None)
    = Return body /\
    b_email body = Some email /\ b_password body = Some password /\
    b_name body = Some name /\
    matches emailRegex email = true /\
    (6 <= String.length password)%nat /\
    (truthy (b_confirmPassword body) = true ->
     b_confirmPassword body = Some password) /\
    (2 <= String.length (trim name))%nat /\
    (String.length name <= 50)%nat /\
    User_findOne (toLowerCase email) = Return None /\
    bcrypt_hash password 12 "salt" = Return hashed /\
    User_save (mkNewUser (trim (toLowerCase email)) hashed (trim name)
                         default_fitnessProfile [] false)
    = Return savedUser /\
    generateToken configured 1000
      (mkClaims (u_id savedUser) (u_email savedUser) (u_name savedUser))
    = Return token /\
    set_cookies
      (match POST configured production 1000 "salt"
               (Return (mkBody (Some "a@b.com") (Some "Abcdef12")
                               (Some "Alice") None)) with
       | Return r => r
       | Throw _ => NextResponse.next
       end)
    = [CookieSet "auth-token" token
         {| httpOnly := true;
            secure := bool_decide (production !! "NODE_ENV" = Some "production");
            sameSite := "strict";
            maxAge := 604800;
            path := "/" |}].
Proof.
  eapply (@created_only_when_valid framed_jws framed_bcrypt empty_store
            configured production 1000 "salt"
            (Return (mkBody (Some "a@b.com") (Some "Abcdef12") (Some "Alice") None))).
  - vm_compute. reflexivity.
  - reflexivity.
Defined.

End RegisterMore.

(** * Properties of the session endpoint *)

Module MeFacts.
Import Jsonwebtoken Auth Me Fixture Sample.

Ltac step := cbn [mbind result_bind mret result_ret try_catch].

Section WithJws.
Context {J : Jws}.

Lemma verifyToken_returns (auth : Loaded) (now : Z) (token : string) :
  exists r, verifyToken auth now token = Return r.
Proof.
  unfold verifyToken.
  destruct (verify token (JWT_SECRET auth) now); eexists; reflexivity.
Qed.

(** What a non-null result of [verifyToken] vouches for. *)
Lemma verifyToken_vouches (auth : Loaded) (now : Z) (token : string)
  (p : JWTPayload) :
  verifyToken auth now token = Return (Some p) ->
  exists secret,
    JWT_SECRET auth = Some secret /\ secret <> "" /\
    jws_verify token secret = true /\
    jws_decode token = Some p /\
    (forall e, exp p = Some e -> now < e).
Proof.
  unfold verifyToken, verify.
  destruct (jws_decode token) as [q|]; [|discriminate].
  destruct (JWT_SECRET auth) as [secret|]; [|discriminate].
  destruct (truthy (Some secret)) eqn:Ht; [|discriminate].
  destruct (jws_verify token secret) eqn:Hsig; [|discriminate].
  assert (Hne : secret <> "") by (intros ->; discriminate).
  simpl. destruct (exp q) as [e|] eqn:He.
  - destruct (e <=? now) eqn:Hle; [discriminate|].
    intros [= <-]. exists secret. repeat split; try assumption.
    intros e' He'. rewrite He in He'. injection He' as <-.
    now apply Z.leb_gt in Hle.
  - intros [= <-]. exists secret. repeat split; try assumption.
    intros e' He'. rewrite He in He'. discriminate.
Qed.

End WithJws.

(** X10.  The session endpoint answers 200 only when the [auth-token]
    cookie holds a token whose signature verifies under the configured
    secret and whose expiry lies ahead, and the user it returns is the one
    the store holds under the [userId] of that token. *)
Theorem session_answers_only_the_token_holder {J : Jws} {U : UserLookup}
  (auth : Loaded) (now : Z) (request : NextRequest) (r : NextResponse)
  (body : Json) :
  GET auth now request = Return r ->
  kind r = JsonResponse body 200 ->
  exists token p secret user,
    req_cookies request !! "auth-token" = Some token /\
    JWT_SECRET auth = Some secret /\
    jws_verify token secret = true /\
    jws_decode token = Some p /\
    (forall e, exp p = Some e -> now < e) /\
    User_findById (userId p) = Return (Some user) /\
    body = JObj [("success", JBool true); ("user", userData user)].
Proof.
  unfold GET, GET_body.
  destruct (req_cookies request !! "auth-token") as [tok|] eqn:Hc;
    [|intros [= <-] [= _ K]; discriminate].
  destruct (negb (truthy (Some tok))); [intros [= <-] [= _ K]; discriminate|].
  destruct (verifyToken auth now tok) as [[p|]|e] eqn:Hv; step;
    [| intros [= <-] [= _ K]; discriminate
     | intros [= <-] [= _ K]; discriminate].
  destruct connectToDatabase as [[]|e]; step;
    [|intros [= <-] [= _ K]; discriminate].
  destruct (User_findById (userId p)) as [[user|]|e] eqn:Hf; step;
    [| intros [= <-] [= _ K]; discriminate
     | intros [= <-] [= _ K]; discriminate].
  intros [= <-] [= <-].
  destruct (verifyToken_vouches auth now tok p Hv)
    as (secret & Hs & _ & Hsig & Hdec & Hexp).
  exists tok, p, secret, user. repeat split; assumption || reflexivity.
Qed.

Lemma session_answers_only_the_token_holder_witness :
  exists token p secret user,
    req_cookies (request "/api/auth/me" {[ "auth-token" := alice_token ]})
      !! "auth-token" = Some token /\
    JWT_SECRET configured = Some secret /\
    jws_verify token secret = true /\
    jws_decode token = Some p /\
    (forall e, exp p = Some e -> 1000 < e) /\
    User_findById (userId p) = Return (Some user) /\
    JObj [("success", JBool true); ("user", userData alice_record)]
    = JObj [("success", JBool true); ("user", userData user)].
Proof.
  apply (@session_answers_only_the_token_holder framed_jws alice_only
           configured 1000
           (request "/api/auth/me" {[ "auth-token" := alice_token ]})
           (NextResponse.json
              (JObj [("success", JBool true); ("user", userData alice_record)])
              200)).
  - vm_compute. reflexivity.
  - reflexivity.
Defined.

(** X11.  The session endpoint always answers and never sets a cookie; the
    answer is the 200 with the user's data, none of whose fields is
    [password], or an error body with status 401, 404 or 500. *)
Theorem session_response_shapes {J : Jws} {U : UserLookup}
  (auth : Loaded) (now : Z) (request : NextRequest) :
  exists r,
    GET auth now request = Return r /\
    set_cookies r = [] /\
    ((exists user,
        kind r = JsonResponse
                   (JObj [("success", JBool true); ("user", userData user)]) 200 /\
        json_field "password" (userData user) = None) \/
     (exists msg status,
        r = error_response msg status /\
        (status = 401 \/ status = 404 \/ status = 500))).
Proof.
  unfold GET, GET_body.
  destruct (req_cookies request !! "auth-token") as [tok|];
    [|eexists; repeat split; right; eauto].
  destruct (negb (truthy (Some tok))); [eexists; repeat split; right; eauto|].
  destruct (verifyToken_returns auth now tok) as [[p|] ->]; step;
    [|eexists; repeat split; right; eauto].
  destruct connectToDatabase as [[]|e]; step;
    [|eexists; repeat split; right; eauto 6].
  destruct (User_findById (userId p)) as [[user|]|e]; step.
  - eexists. repeat split. left. exists user. split; reflexivity.
  - eexists. repeat split. right. eauto 6.
  - eexists. repeat split. right. eauto 6.
Qed.

(** X12.  Without a token that verifies the session endpoint answers 401
    whatever the state of the store: the token is checked before the
    database is touched. *)
Theorem session_checks_token_before_store {J : Jws} {U : UserLookup}
  (auth : Loaded) (now : Z) (request : NextRequest) :
  truthy (req_cookies request !! "auth-token") = false \/
  (exists token, req_cookies request !! "auth-token" = Some token /\
                 verifyToken auth now token = Return None) ->
  exists msg, GET auth now request = Return (error_response msg 401).
Proof.
  unfold GET, GET_body. intros [Hnone | (tok & Hc & Hv)].
  - destruct (req_cookies request !! "auth-token") as [tok|];
      [|eexists; reflexivity].
    rewrite Hnone. eexists. reflexivity.
  - rewrite Hc.
    destruct (negb (truthy (Some tok))); [eexists; reflexivity|].
    rewrite Hv. eexists. reflexivity.
Qed.

Lemma session_checks_token_before_store_witness :
  exists msg,
    @GET framed_jws store_down configured 1000
         (request "/api/auth/me" {[ "auth-token" := "junk" ]})
    = Return (error_response msg 401).
Proof.
  apply (@session_checks_token_before_store framed_jws store_down configured
           1000 (request "/api/auth/me" {[ "auth-token" := "junk" ]})).
  right. exists "junk". split; reflexivity.
Defined.

(** X17.  Issuing and session compose: the token [generateToken] issues for
    a user, sent back in the [auth-token] cookie before seven days have
    passed, makes the session endpoint answer 200 with the data the store
    holds under that user's id.  (A token is never the empty string.) *)
Theorem issued_token_opens_session {J : Jws} {L : JwsLaws J} {U : UserLookup}
  (env : gmap string string) (auth : Loaded) (c : Claims) (now t : Z)
  (token : string) (request : NextRequest) (user : LeanUser) :
  load env = Return auth ->
  generateToken auth now c = Return token ->
  token <> "" ->
  now <= t < now + 7 * 24 * 60 * 60 ->
  req_cookies request !! "auth-token" = Some token ->
  connectToDatabase = Return tt ->
  User_findById (c_userId c) = Return (Some user) ->
  GET auth t request
  = Return (NextResponse.json
              (JObj [("success", JBool true); ("user", userData user)]) 200).
Proof.
  intros Hload Hgen Hnonempty Ht Hcookie Hdb Hfind.
  destruct (AuthFacts.load_inv env auth Hload) as (secret & _ & Hne & Hs).
  rewrite (AuthFacts.generateToken_configured auth secret now c Hs Hne) in Hgen.
  injection Hgen as <-.
  assert (Hv : verifyToken auth t
                 (jws_sign (mkPayload (c_userId c) (c_email c) (c_name c)
                                      (Some now) (Some (now + 604800))) secret)
               = Return (Some (mkPayload (c_userId c) (c_email c) (c_name c)
                                         (Some now) (Some (now + 604800))))).
  { unfold verifyToken, verify.
    rewrite decode_sign, Hs, AuthFacts.truthy_Some, verify_sign by assumption.
    simpl. destruct (now + 604800 <=? t) eqn:Hle; [|reflexivity].
    apply Z.leb_le in Hle. lia. }
  unfold GET, GET_body. rewrite Hcookie.
  rewrite (AuthFacts.truthy_Some _ Hnonempty). cbn [negb].
  rewrite Hv. step. rewrite Hdb. step.
  cbn [userId]. rewrite Hfind. reflexivity.
Qed.

Lemma issued_token_opens_session_witness :
  GET configured 1000 (request "/api/auth/me" {[ "auth-token" := alice_token ]})
  = Return (NextResponse.json
              (JObj [("success", JBool true); ("user", userData alice_record)])
              200).
Proof.
  apply (@issued_token_opens_session framed_jws AuthFacts.framed_jws_laws
           alice_only production configured alice 1000 1000 alice_token
           (request "/api/auth/me" {[ "auth-token" := alice_token ]})
           alice_record);
    try reflexivity; [discriminate | lia].
Defined.

End MeFacts.

(** * Properties of the input sanitizer *)

Module SanitizeFacts.
Import Register RegexClasses AIUtils TrimFacts.
#[local] Arguments String.append : simpl nomatch.

Lemma all_chars_append (P : ascii -> bool) (a b : string) :
  all_chars P (a ++ b) = all_chars P a && all_chars P b.
Proof.
  induction a as [|c a IH]; simpl; [reflexivity|].
  now rewrite IH, andb_assoc.
Qed.

Lemma all_chars_rev (P : ascii -> bool) (s : string) :
  all_chars P (String.rev s) = all_chars P s.
Proof.
  induction s as [|c s IH]; [reflexivity|].
  rewrite rev_cons, all_chars_append, IH. simpl.
  now rewrite andb_true_r, andb_comm.
Qed.

Lemma all_chars_trimStart (P : ascii -> bool) (s : string) :
  all_chars P s = true -> all_chars P (trimStart s) = true.
Proof.
  induction s as [|c s IH]; simpl; [reflexivity|].
  intros H. apply andb_true_iff in H as [Hc Hs].
  destruct (is_space c); [auto | simpl; now rewrite Hc, Hs].
Qed.

Lemma all_chars_trim (P : ascii -> bool) (s : string) :
  all_chars P s = true -> all_chars P (trim s) = true.
Proof.
  intros H. unfold trim. rewrite all_chars_rev.
  apply all_chars_trimStart. rewrite all_chars_rev.
  now apply all_chars_trimStart.
Qed.

Lemma rev_append (a b : string) :
  String.rev (a ++ b) = String.rev b ++ String.rev a.
Proof. unfold String.rev at 1. rewrite rev_app_append. apply rev_app_spec. Qed.

(** What [trim] returns does not end with a space. *)
Lemma trim_rev_fixed (s : string) :
  trimStart (String.rev (trim s)) = String.rev (trim s).
Proof.
  unfold trim. rewrite rev_involutive. apply trimStart_idempotent.
Qed.

(** What [trim] returns does not begin with a space. *)
Lemma trim_head_fixed (s : string) : trimStart (trim s) = trim s.
Proof.
  unfold trim.
  destruct (trimStart_split (String.rev (trimStart s))) as (spaces & E & _).
  set (z := trimStart (String.rev (trimStart s))) in *.
  apply (f_equal String.rev) in E. rewrite rev_involutive, rev_append in E.
  pose proof (trimStart_head s) as Hhead. rewrite E in Hhead.
  destruct (String.rev z) as [|c r]; [reflexivity|].
  simpl in Hhead. now apply trimStart_fixed.
Qed.

Lemma trim_idempotent (s : string) : trim (trim s) = trim s.
Proof.
  unfold trim at 1. rewrite trim_head_fixed, trim_rev_fixed.
  apply rev_involutive.
Qed.

Lemma strip_has_no_angle (s : string) :
  all_chars no_angle (strip_angle_brackets s) = true.
Proof.
  induction s as [|c s IH]; simpl; [reflexivity|].
  destruct (Ascii.eqb c "<" || Ascii.eqb c ">") eqn:E; [exact IH|].
  simpl. unfold no_angle at 1. rewrite E. exact IH.
Qed.

Lemma strip_fixed (s : string) :
  all_chars no_angle s = true -> strip_angle_brackets s = s.
Proof.
  induction s as [|c s IH]; simpl; [reflexivity|].
  intros H. apply andb_true_iff in H as [Hc Hs].
  unfold no_angle in Hc. apply negb_true_iff in Hc. rewrite Hc.
  now rewrite IH.
Qed.

(** X13.  What [sanitizeInput] returns holds no [<] and no [>], has no
    space at either end, and is left unchanged by sanitizing it again. *)
Theorem sanitizeInput_is_clean (input : string) :
  all_chars no_angle (sanitizeInput input) = true /\
  trimStart (sanitizeInput input) = sanitizeInput input /\
  trimStart (String.rev (sanitizeInput input)) = String.rev (sanitizeInput input) /\
  sanitizeInput (sanitizeInput input) = sanitizeInput input.
Proof.
  assert (H : all_chars no_angle (sanitizeInput input) = true).
  { apply all_chars_trim, strip_has_no_angle. }
  split; [exact H|]. split; [apply trim_head_fixed|].
  split; [apply trim_rev_fixed|].
  unfold sanitizeInput at 1. rewrite (strip_fixed _ H).
  apply trim_idempotent.
Qed.

End SanitizeFacts.

(** * Properties of the form validators *)

Module AuthFormFacts.
Import Regex RegexClasses RegexFacts AuthForm.
#[local] Arguments String.append : simpl nomatch.

Lemma ahead_some_char (cls : ascii -> bool) (s : string) :
  ahead cls s = true -> some_char cls s = true.
Proof.
  induction s as [|c s IH]; simpl; [discriminate|].
  destruct (cls c); simpl; [reflexivity|].
  intros H. apply andb_true_iff in H as [_ H]. auto.
Qed.

Lemma test_mixed_some_char (s : string) :
  test_mixed s = true ->
  some_char is_lower s = true /\ some_char is_upper s = true /\
  some_char is_digit s = true.
Proof.
  induction s as [|c s IH]; simpl; [discriminate|].
  intros H. apply orb_true_iff in H as [H|H].
  - apply andb_true_iff in H as [H Hd]. apply andb_true_iff in H as [Hl Hu].
    repeat split;
      match goal with
      | |- ?cls c || some_char ?cls s = true =>
          exact (ahead_some_char cls (String c s) ltac:(assumption))
      end.
  - destruct (IH H) as (Hl & Hu & Hd). rewrite Hl, Hu, Hd, !orb_true_r. auto.
Qed.

Lemma single_line_ahead (cls : ascii -> bool) (s : string) :
  all_chars (fun c => negb (is_line_terminator c)) s = true ->
  ahead cls s = some_char cls s.
Proof.
  induction s as [|c s IH]; simpl; [reflexivity|].
  intros H. apply andb_true_iff in H as [Hc Hs]. now rewrite Hc, IH.
Qed.

(** X14.  [validatePassword] accepts (returns [null]) only a password of at
    least 8 characters holding a lower-case letter, an upper-case letter
    and a digit; such a password also passes the 6-character check of the
    registration endpoint.  For a password without line breaks these
    conditions are also sufficient. *)
Theorem validatePassword_spec (password : string) :
  (validatePassword password = None ->
     (8 <= String.length password)%nat /\
     some_char is_lower password = true /\
     some_char is_upper password = true /\
     some_char is_digit password = true /\
     (String.length password <? 6)%nat = false) /\
  (all_chars (fun c => negb (is_line_terminator c)) password = true ->
   (8 <= String.length password)%nat ->
   some_char is_lower password = true ->
   some_char is_upper password = true ->
   some_char is_digit password = true ->
   validatePassword password = None).
Proof.
  unfold validatePassword. split.
  - destruct (String.length password <? 8)%nat eqn:Hlen; [discriminate|].
    destruct (test_mixed password) eqn:Hmix; [|discriminate].
    intros _. apply Nat.ltb_ge in Hlen.
    destruct (test_mixed_some_char _ Hmix) as (Hl & Hu & Hd).
    repeat split; try assumption. apply Nat.ltb_ge. lia.
  - intros Hline Hlen Hl Hu Hd.
    apply Nat.ltb_ge in Hlen. rewrite Hlen.
    assert (Hmix : test_mixed password = true).
    { destruct password as [|c s]; [discriminate|].
      change (test_mixed (String c s))
        with ((ahead is_lower (String c s) && ahead is_upper (String c s)
               && ahead is_digit (String c s)) || test_mixed s).
      rewrite !single_line_ahead by assumption.
      now rewrite Hl, Hu, Hd. }
    now rewrite Hmix.
Qed.

Lemma lang_not_nullable (r : Regex.t) (w : string) :
  nullable r = false -> lang r w -> w <> "".
Proof.
  intros Hn Hw ->. apply nullable_spec in Hw. congruence.
Qed.

(** The strings of an expression are made of the characters of its
    classes. *)
Lemma lang_within (allowed : ascii -> bool) (r : Regex.t) (w : string) :
  lang r w -> within allowed r -> all_chars allowed w = true.
Proof.
  induction 1 as [|m c Hc|r s a b _ IHa _ IHb|r s a _ IH|r s a _ IH|r
                  |r a b _ IHa _ IHb]; simpl.
  - reflexivity.
  - intros H. now rewrite (H c Hc).
  - intros [Hr Hs]. rewrite SanitizeFacts.all_chars_append, IHa, IHb; auto.
  - intros [Hr _]. auto.
  - intros [_ Hs]. auto.
  - reflexivity.
  - intros Hr. rewrite SanitizeFacts.all_chars_append, IHa, IHb; auto.
Qed.

Lemma lang_star_class (n : ascii -> bool) (w : string) :
  all_chars n w = true -> lang (Star (Class n)) w.
Proof.
  induction w as [|c w IH]; simpl; intros H; [constructor|].
  apply andb_true_iff in H as [Hc Hw].
  exact (lang_star_cons (Class n) (String c "") w (lang_class n c Hc) (IH Hw)).
Qed.

Lemma lang_plus_class (n : ascii -> bool) (w : string) :
  w <> "" -> all_chars n w = true -> lang (plus (Class n)) w.
Proof.
  destruct w as [|c w]; [congruence|]. simpl. intros _ H.
  apply andb_true_iff in H as [Hc Hw].
  exact (lang_seq (Class n) (Star (Class n)) (String c "") w
           (lang_class n c Hc) (lang_star_class n w Hw)).
Qed.

(** A class of the server's pattern holds server characters only. *)
Ltac class_in_server Hc :=
  first [ exact I
        | unfold server_char; rewrite Hc; reflexivity
        | apply Ascii.eqb_eq in Hc; subst; reflexivity
        | unfold server_char; rewrite <- orb_assoc, Hc; apply orb_true_r ].

Lemma server_char_allowed (c : ascii) :
  server_char c = true -> not_space_or_at c = true.
Proof. destruct c as [[] [] [] [] [] [] [] []]; vm_compute; congruence. Qed.

Lemma all_chars_weaken (P Q : ascii -> bool) (s : string) :
  (forall c, P c = true -> Q c = true) ->
  all_chars P s = true -> all_chars Q s = true.
Proof.
  intros HPQ. induction s as [|c s IH]; simpl; [reflexivity|].
  intros H. apply andb_true_iff in H as [Hc Hs]. now rewrite (HPQ c Hc), IH.
Qed.

(** X15.  Every e-mail the registration endpoint accepts is accepted by the
    form's [validateEmail]: the form never blocks an address the server
    would take. *)
Theorem server_email_passes_the_form (email : string) :
  matches Register.emailRegex email = true -> validateEmail email = true.
Proof.
  intros H. apply matches_spec in H. apply matches_spec.
  unfold Register.emailRegex in H. cbv zeta in H.
  set (words := Seq (plus word)
                    (Star (Seq (opt (Class (fun c => Ascii.eqb c "." || Ascii.eqb c "-")))
                               (plus word)))) in H.
  set (tld := Seq (char ".") (Seq word (Seq word (opt word)))) in H.
  assert (Wwords : within server_char words).
  { unfold words, plus, opt, word. cbn [within].
    repeat split; intros c Hc; class_in_server Hc. }
  assert (Wtld : within server_char (Star tld)).
  { unfold tld, plus, opt, word, char. cbn [within].
    repeat split; intros c Hc; class_in_server Hc. }
  assert (Wrest : within server_char (Seq word (Seq word (opt word)))).
  { unfold opt, word. cbn [within].
    repeat split; intros c Hc; class_in_server Hc. }
  assert (Good : forall r w, within server_char r -> lang r w ->
                             all_chars not_space_or_at w = true).
  { intros r w Hr Hw. eapply all_chars_weaken; [exact server_char_allowed|].
    eapply lang_within; eassumption. }
  apply lang_seq_inv in H as (x & r1 & -> & Hx & H).
  apply lang_seq_inv in H as (at_ & r2 & -> & Hat & H).
  apply lang_seq_inv in H as (z & t & -> & Hz & H).
  unfold plus in H.
  apply lang_seq_inv in H as (t1 & t2 & -> & H1 & H2).
  apply lang_seq_inv in H1 as (d & rest & -> & Hd & Hrest).
  unfold validateEmail, AuthForm.emailRegex.
  apply lang_seq; [apply lang_plus_class|].
  { eapply lang_not_nullable; [|exact Hx]. reflexivity. }
  { now apply (Good words). }
  apply lang_seq; [exact Hat|].
  rewrite !AuthFacts.append_assoc.
  apply lang_seq; [apply lang_plus_class|].
  { eapply lang_not_nullable; [|exact Hz]. reflexivity. }
  { now apply (Good words). }
  apply lang_seq; [exact Hd|].
  apply lang_plus_class.
  - assert (rest <> "") by (eapply lang_not_nullable; [|exact Hrest]; reflexivity).
    destruct rest; [congruence | discriminate].
  - rewrite SanitizeFacts.all_chars_append.
    rewrite (Good _ _ Wrest Hrest), (Good _ _ Wtld H2). reflexivity.
Qed.

Lemma server_email_passes_the_form_witness :
  validateEmail "first.last@mail.example.org" = true.
Proof.
  apply (server_email_passes_the_form "first.last@mail.example.org").
  reflexivity.
Defined.

End AuthFormFacts.

(** * Properties of the profile completeness *)

Module UserModelFacts.
Import UserModel.

(** X16.  [profileCompleteness] is a percentage between 0 and 100; it is
    100 exactly when age, weight, height, fitness level and activity level
    are set and at least one goal is listed; and it is at least 33 once
    fitness level and activity level are set, as the schema defaults make
    them. *)
Theorem profileCompleteness_range (fitnessProfile : option FitnessProfile) :
  0 <= profileCompleteness fitnessProfile <= 100 /\
  (profileCompleteness fitnessProfile = 100 <->
   exists p, fitnessProfile = Some p /\
     present (age p) && present (weight p) && present (height p) &&
     present (fitnessLevel p) && present_array (goals p) &&
     present (activityLevel p) = true) /\
  (forall p, fitnessProfile = Some p ->
     present (fitnessLevel p) = true -> present (activityLevel p) = true ->
     33 <= profileCompleteness fitnessProfile).
Proof.
  destruct fitnessProfile as [p|].
  - destruct p as [a w h f g i al d act pw wf].
    remember (profileCompleteness _) as v eqn:E.
    destruct a, w, h, f, g as [[|g0 g]|], act; vm_compute in E; subst v;
      (split; [lia|]);
      (split;
       [split;
        [intros H; try discriminate H; eexists; split; reflexivity
        |intros (q & [= <-] & H); try discriminate H; reflexivity]
       |intros q [= <-] Hf Ha; try discriminate Hf; try discriminate Ha; lia]).
  - split; [simpl; lia|]. split.
    + split; [discriminate | intros (p & H & _); discriminate].
    + intros p H. discriminate.
Qed.

End UserModelFacts.

(** * Properties of password hashing *)

Module BcryptFacts.
Import Bcryptjs Auth.
#[local] Arguments String.append : simpl nomatch.

Lemma substring_prefix (a b : string) :
  String.substring 0 (String.length a) (a ++ b) = a.
Proof.
  induction a as [|c a IH]; simpl; [now destruct b | now rewrite IH].
Qed.

Lemma length_substring (n : nat) : forall t,
  (n <= String.length t)%nat -> String.length (String.substring 0 n t) = n.
Proof.
  induction n as [|n IH]; intros [|c t]; simpl; intros H;
    try reflexivity; try lia.
  rewrite IH; lia.
Qed.

Lemma length_copies (n : nat) (s : string) :
  String.length (copies n s) = (n * String.length s)%nat.
Proof.
  induction n as [|n IH]; simpl; [reflexivity|].
  now rewrite StringFacts.length_append, IH.
Qed.

Lemma length_pad (n : nat) (s : string) : String.length (pad n s) = n.
Proof.
  unfold pad. apply length_substring.
  rewrite StringFacts.length_append, length_copies. simpl. lia.
Qed.

Lemma eqb_append (a x y : string) :
  String.eqb (a ++ x) (a ++ y) = String.eqb x y.
Proof.
  induction a as [|c a IH]; simpl; [reflexivity|].
  now rewrite Ascii.eqb_refl.
Qed.

(** Equal concatenations with left parts of equal length have equal
    parts. *)
Lemma append_inj (a : string) : forall a' b b',
  String.length a = String.length a' -> a ++ b = a' ++ b' -> a = a' /\ b = b'.
Proof.
  induction a as [|c a IH]; intros [|c' a'] b b'; simpl; try discriminate.
  - auto.
  - intros [= Hl] [= -> H]. destruct (IH _ _ _ Hl H) as [-> ->]. auto.
Qed.

#[global] Instance padded_core_laws : BlowfishLaws padded_core.
Proof.
  split.
  - intros entropy. apply length_pad.
  - intros bytes H. simpl. rewrite StringFacts.length_append, H. reflexivity.
  - intros bytes H. simpl. rewrite <- H. apply substring_prefix.
  - intros key salt cost. apply length_pad.
Qed.

Section WithBlowfish.
Context {C : Blowfish} {L : BlowfishLaws C}.

Lemma salt_text_length (entropy : string) :
  String.length (salt_text entropy) = 22%nat.
Proof. apply encode_salt_length, random_bytes_length. Qed.

(** Hashing under the salt of a ['$2a$12$'] hash. *)
Lemma hash_with_salt_12 (password entropy rest : string) :
  hash_with_salt password ("$2a$12$" ++ salt_text entropy ++ rest)
  = Return ("$2a$12$" ++ salt_text entropy ++ digest entropy password).
Proof.
  unfold hash_with_salt. simpl.
  unfold substring_to. simpl.
  pose proof (salt_text_length entropy) as Hlen.
  change 22%nat with (25 - 3)%nat in Hlen.
  assert (Hsub : String.substring 0 22 (salt_text entropy ++ rest)
                 = salt_text entropy).
  { rewrite <- (salt_text_length entropy) at 1. apply substring_prefix. }
  rewrite Hsub. unfold salt_text at 1 2.
  rewrite decode_encode_salt by apply random_bytes_length.
  unfold crypt. simpl. rewrite random_bytes_length. simpl. reflexivity.
Qed.

Lemma hashPassword_shape (entropy password : string) :
  @hashPassword package entropy password
  = Return ("$2a$12$" ++ salt_text entropy ++ digest entropy password).
Proof.
  unfold hashPassword. simpl. unfold hash.
  change (genSalt 12 entropy) with ("$2a$12$" ++ salt_text entropy).
  rewrite <- (AuthFacts.append_empty_r (salt_text entropy)) at 1.
  apply hash_with_salt_12.
Qed.

Lemma comparePassword_hash (entropy password candidate : string) :
  @comparePassword package candidate
    ("$2a$12$" ++ salt_text entropy ++ digest entropy password)
  = Return (String.eqb (digest entropy candidate) (digest entropy password)).
Proof.
  change (compare candidate
            ("$2a$12$" ++ salt_text entropy ++ digest entropy password)
          = Return (String.eqb (digest entropy candidate)
                               (digest entropy password))).
  unfold compare.
  assert (Hlen : String.length
                   ("$2a$12$" ++ salt_text entropy ++ digest entropy password)
                 = 60%nat).
  { rewrite !StringFacts.length_append, salt_text_length.
    unfold digest. rewrite crypt_raw_length. reflexivity. }
  rewrite Hlen.
  assert (Hsub : String.substring 0 29
                   ("$2a$12$" ++ salt_text entropy ++ digest entropy password)
                 = "$2a$12$" ++ salt_text entropy ++ "").
  { simpl. f_equal. f_equal. f_equal. f_equal. f_equal. f_equal. f_equal.
    rewrite AuthFacts.append_empty_r.
    rewrite <- (salt_text_length entropy) at 1. apply substring_prefix. }
  rewrite Hsub, hash_with_salt_12.
  cbn [Nat.eqb negb mbind result_bind].
  f_equal.
  rewrite (eqb_append "$2a$12$"), eqb_append. reflexivity.
Qed.

Lemma stringToBytes_app (a b : string) :
  stringToBytes (a ++ b) = stringToBytes a ++ stringToBytes b.
Proof.
  induction a as [|c a IH]; simpl; [reflexivity|].
  destruct (_ <? 128)%nat; simpl; now rewrite IH.
Qed.

(** The key schedule sees nothing past the 72nd byte. *)
Lemma key_bytes_long (a rest : string) :
  String.length a = 72%nat -> key_bytes (a ++ rest) = a.
Proof.
  intros H. unfold key_bytes.
  change (copies 72 (a ++ rest))
    with ((a ++ rest) ++ copies 71 (a ++ rest)).
  rewrite AuthFacts.append_assoc, <- H. apply substring_prefix.
Qed.

Lemma digest_shared_prefix (entropy a x y : string) :
  String.length (stringToBytes a) = 72%nat ->
  digest entropy (a ++ x) = digest entropy (a ++ y).
Proof.
  intros H. unfold digest.
  rewrite !AuthFacts.append_assoc, !stringToBytes_app.
  now rewrite !key_bytes_long.
Qed.

Lemma hashes_equal_iff (entropy entropy' password : string) :
  "$2a$12$" ++ salt_text entropy ++ digest entropy password
  = "$2a$12$" ++ salt_text entropy' ++ digest entropy' password
  <-> random_bytes entropy = random_bytes entropy'.
Proof.
  split.
  - intros H. simpl in H. injection H as H.
    apply append_inj in H as [H _];
      [|now rewrite !salt_text_length].
    unfold salt_text in H.
    rewrite <- (decode_encode_salt (random_bytes entropy))
      by apply random_bytes_length.
    rewrite H. apply decode_encode_salt, random_bytes_length.
  - intros H. unfold salt_text, digest. now rewrite H.
Qed.

End WithBlowfish.

(** C6.  With bcryptjs over any Blowfish core of the right lengths:
    [hashPassword] returns a hash [h] that [comparePassword] accepts for
    the same password; two hashes of one password are the same string
    exactly when the same salt bytes were drawn; and
    [comparePassword(p', h)] is true exactly when the digests of [p'] and
    [p] under the salt of [h] agree, which they do whenever the two
    passwords share their first 72 bytes. *)
Theorem compare_accepts_equal_key_bytes {C : Blowfish} {L : BlowfishLaws C}
  (p p' entropy entropy' : string) :
  exists h h',
    @hashPassword package entropy p = Return h /\
    @hashPassword package entropy' p = Return h' /\
    @comparePassword package p h = Return true /\
    (h = h' <-> random_bytes entropy = random_bytes entropy') /\
    @comparePassword package p' h
    = Return (String.eqb (digest entropy p') (digest entropy p)) /\
    (forall a x y : string,
       String.length (stringToBytes a) = 72%nat ->
       p' = a ++ x -> p = a ++ y ->
       @comparePassword package p' h = Return true).
Proof.
  exists ("$2a$12$" ++ salt_text entropy ++ digest entropy p),
         ("$2a$12$" ++ salt_text entropy' ++ digest entropy' p).
  split; [apply hashPassword_shape|].
  split; [apply hashPassword_shape|].
  split; [rewrite comparePassword_hash, String.eqb_refl; reflexivity|].
  split; [apply hashes_equal_iff|].
  split; [apply comparePassword_hash|].
  intros a x y Ha -> ->.
  rewrite comparePassword_hash, (digest_shared_prefix entropy a x y Ha).
  now rewrite String.eqb_refl.
Qed.

Lemma compare_accepts_equal_key_bytes_witness :
  BlowfishLaws padded_core /\
  exists h h',
    @hashPassword (@package padded_core) "salt" "hunter2" = Return h /\
    @hashPassword (@package padded_core) "pepper" "hunter2" = Return h' /\
    @comparePassword (@package padded_core) "hunter2" h = Return true /\
    (h = h' <-> @random_bytes padded_core "salt"
                = @random_bytes padded_core "pepper") /\
    @comparePassword (@package padded_core) "hunter3" h
    = Return (String.eqb (@digest padded_core "salt" "hunter3")
                         (@digest padded_core "salt" "hunter2")) /\
    (forall a x y : string,
       String.length (stringToBytes a) = 72%nat ->
       "hunter3" = a ++ x -> "hunter2" = a ++ y ->
       @comparePassword (@package padded_core) "hunter3" h = Return true).
Proof.
  split; [exact padded_core_laws|].
  apply (@compare_accepts_equal_key_bytes padded_core padded_core_laws
           "hunter2" "hunter3" "salt" "pepper").
Defined.

(** C6, at the code.  Two different passwords of 73 characters that share
    their first 72 are accepted for each other's hash, whatever the
    Blowfish core and the salt drawn. *)
Lemma long_passwords_compare_true :
  seventy_two_a ++ "x" <> seventy_two_a ++ "y" /\
  forall (C : Blowfish) (L : BlowfishLaws C) (entropy : string),
    (h ← @hashPassword package entropy (seventy_two_a ++ "y");
     @comparePassword package (seventy_two_a ++ "x") h)
    = Return true.
Proof.
  split; [vm_compute; discriminate|].
  intros C L entropy.
  rewrite hashPassword_shape. cbn [mbind result_bind].
  rewrite comparePassword_hash.
  rewrite (digest_shared_prefix entropy seventy_two_a "x" "y") by reflexivity.
  now rewrite String.eqb_refl.
Qed.

End BcryptFacts.

(** * The auth library and the handlers that import it *)

Module HostFacts.
Import Jsonwebtoken Auth Host Fixture.

Section Serve.
Context {J : Jws} {B : Bcrypt} {S : Register.UserStore} {U : Me.UserLookup}.



End Serve.



End HostFacts.
